(** * copy_jam_documents: the slug transform and the one-shot synchronisation run

    A shallow embedding of [copy_jam_documents.py].  Python [str] values are
    lists of Unicode code points, [bytes] values are lists of byte values;
    both are lists over [N].  Calls to the wiki, to the storage provider and
    to the operating system are steps of a small state-and-error monad that
    records every call in a trace; the storage provider and the operating
    system may answer any request with an error, and a file written through
    a file object reaches the disk when its buffer is written out. *)

From Stdlib Require Import NArith Ascii String List Bool Lia.
From stdpp Require Import base option list gmap strings.
Import ListNotations.

Local Open Scope N_scope.

(** ** Strings *)

(** A Python [str]: a sequence of code points. *)
Definition pystr : Type := list N.

(** A Python [bytes] object. *)
Definition pybytes : Type := list N.

(** An ASCII literal of the source, as a [str]. *)
Definition py (s : string) : pystr :=
  List.map N_of_ascii (list_ascii_of_string s).

(** ** Character tables

    After the ASCII round trip of [slugify] only code points below 128 are
    left, so [str.lower], [\w] and [\s] are tabulated on that range, where
    they are: A-Z to a-z; letters, digits and the underscore; the ten ASCII
    white-space characters of [str.isspace]. *)

Definition hyphen : N := 45.
Definition underscore : N := 95.

Definition is_ascii (c : N) : bool := c <? 128.

Definition is_digit (c : N) : bool := (48 <=? c) && (c <=? 57).
Definition is_upper (c : N) : bool := (65 <=? c) && (c <=? 90).
Definition is_lower (c : N) : bool := (97 <=? c) && (c <=? 122).

Definition lower_char (c : N) : N := if is_upper c then c + 32 else c.

(** [\w] *)
Definition is_word (c : N) : bool :=
  is_digit c || is_upper c || is_lower c || (c =? underscore).

(** [\s] *)
Definition is_space (c : N) : bool :=
  ((9 <=? c) && (c <=? 13)) || ((28 <=? c) && (c <=? 31)) || (c =? 32).

(** The class [[^\w\s-]]. *)
Definition not_word_space_hyphen (c : N) : bool :=
  negb (is_word c || is_space c || (c =? hyphen)).

(** The class [[-\s]]. *)
Definition hyphen_or_space (c : N) : bool := (c =? hyphen) || is_space c.

(** The slash, which separates the components of a path. *)
Definition slash : N := 47.

(** The characters of the argument of [.strip("-_")]. *)
Definition hyphen_or_underscore (c : N) : bool :=
  (c =? hyphen) || (c =? underscore).

(** ** The pieces of [slugify] *)

(** [value.encode("ascii", "ignore")]: code points outside ASCII are dropped. *)
Definition encode_ascii_ignore (value : pystr) : pybytes :=
  List.filter is_ascii value.

(** [b.decode("ascii")]: fails on a byte that is not ASCII. *)
Definition decode_ascii (b : pybytes) : option pystr :=
  if forallb is_ascii b then Some b else None.

(** [value.lower()] *)
Definition lower (value : pystr) : pystr := List.map lower_char value.

(** [re.sub(cls, repl, value)] for a pattern [cls] that is one character
    class: every character of the class is replaced by [repl]. *)
Definition re_sub_class (cls : N -> bool) (repl : pystr) (value : pystr) : pystr :=
  flat_map (fun c => if cls c then repl else [c]) value.

(** [re.sub(cls+, repl, value)]: every maximal run of characters of the class
    is replaced by one [repl].  [in_run] tells that the previous character
    was of the class, so that the run has been replaced already. *)
Fixpoint re_sub_class_plus_from (cls : N -> bool) (repl : pystr)
    (in_run : bool) (value : pystr) : pystr :=
  match value with
  | [] => []
  | c :: rest =>
      if cls c then
        (if in_run then [] else repl)
          ++ re_sub_class_plus_from cls repl true rest
      else c :: re_sub_class_plus_from cls repl false rest
  end.

Definition re_sub_class_plus (cls : N -> bool) (repl : pystr) (value : pystr) : pystr :=
  re_sub_class_plus_from cls repl false value.

Fixpoint lstrip (chars : N -> bool) (value : pystr) : pystr :=
  match value with
  | [] => []
  | c :: rest => if chars c then lstrip chars rest else value
  end.

Definition rstrip (chars : N -> bool) (value : pystr) : pystr :=
  reverse (lstrip chars (reverse value)).

(** [value.strip(chars)] *)
Definition strip (chars : N -> bool) (value : pystr) : pystr :=
  rstrip chars (lstrip chars value).

(** ** [slugify]

    [unicodedata.normalize("NFKD", _)] is a table of the Unicode database and
    is taken as a parameter.  [str(value)] is the identity on the titles
    [main] passes, which are [str] already. *)

Section Slugify.

Variable nfkd : pystr -> pystr.

Definition slugify (value : pystr) : option pystr :=
  value ← decode_ascii (encode_ascii_ignore (nfkd value));
  let value := re_sub_class not_word_space_hyphen [] (lower value) in
  Some (strip hyphen_or_underscore
          (re_sub_class_plus hyphen_or_space [hyphen] value)).

End Slugify.

(** The decomposition table on the Basic Latin and Latin-1 Supplement blocks
    (U+0000 to U+00FF).  Code points above U+00FF are left as they are; the
    em dash U+2014 is one that has no decomposition. *)
Definition nfkd_latin1_char (c : N) : list N :=
  match c with
  | 160 => [32] | 168 => [32; 776] | 170 => [97] | 175 => [32; 772]
  | 178 => [50] | 179 => [51] | 180 => [32; 769] | 181 => [956]
  | 184 => [32; 807] | 185 => [49] | 186 => [111]
  | 188 => [49; 8260; 52] | 189 => [49; 8260; 50] | 190 => [51; 8260; 52]
  | 192 => [65; 768] | 193 => [65; 769] | 194 => [65; 770] | 195 => [65; 771]
  | 196 => [65; 776] | 197 => [65; 778] | 199 => [67; 807]
  | 200 => [69; 768] | 201 => [69; 769] | 202 => [69; 770] | 203 => [69; 776]
  | 204 => [73; 768] | 205 => [73; 769] | 206 => [73; 770] | 207 => [73; 776]
  | 209 => [78; 771]
  | 210 => [79; 768] | 211 => [79; 769] | 212 => [79; 770] | 213 => [79; 771]
  | 214 => [79; 776]
  | 217 => [85; 768] | 218 => [85; 769] | 219 => [85; 770] | 220 => [85; 776]
  | 221 => [89; 769]
  | 224 => [97; 768] | 225 => [97; 769] | 226 => [97; 770] | 227 => [97; 771]
  | 228 => [97; 776] | 229 => [97; 778] | 231 => [99; 807]
  | 232 => [101; 768] | 233 => [101; 769] | 234 => [101; 770] | 235 => [101; 776]
  | 236 => [105; 768] | 237 => [105; 769] | 238 => [105; 770] | 239 => [105; 776]
  | 241 => [110; 771]
  | 242 => [111; 768] | 243 => [111; 769] | 244 => [111; 770] | 245 => [111; 771]
  | 246 => [111; 776]
  | 249 => [117; 768] | 250 => [117; 769] | 251 => [117; 770] | 252 => [117; 776]
  | 253 => [121; 769] | 255 => [121; 776]
  | _ => [c]
  end.

Definition nfkd_latin1 (value : pystr) : pystr := flat_map nfkd_latin1_char value.

(** The two titles of the specification's examples.  In the second, 233 is
    e with acute, 224 is a with grave and 8212 is the em dash. *)
Definition q3_title : pystr := py "Q3 Planning Notes!!".

Definition cafe_title : pystr :=
  py "  Caf" ++ [233; 8212] ++ py "D" ++ [233] ++ py "j" ++ [224] ++ py " Vu  ".

(** ** The pattern of the specification

    Regular expressions over code points, with the usual matching relation.
    [slug_pattern word] is [^word+(-word+)*$]. *)

Inductive regex : Type :=
| Cls (p : N -> bool)
| Cat (r1 r2 : regex)
| Star (r : regex).

Inductive matches : regex -> pystr -> Prop :=
| MCls p c : p c = true -> matches (Cls p) [c]
| MCat r1 r2 s1 s2 :
    matches r1 s1 -> matches r2 s2 -> matches (Cat r1 r2) (s1 ++ s2)
| MStarNil r : matches (Star r) []
| MStarApp r s1 s2 :
    matches r s1 -> matches (Star r) s2 -> matches (Star r) (s1 ++ s2).

Definition Plus (r : regex) : regex := Cat r (Star r).

Definition slug_pattern (word : N -> bool) : regex :=
  Cat (Plus (Cls word)) (Star (Cat (Cls (N.eqb hyphen)) (Plus (Cls word)))).

(** [[a-z0-9]] *)
Definition is_lower_alnum (c : N) : bool := is_lower c || is_digit c.

(** [[a-z0-9_]] *)
Definition is_lower_word (c : N) : bool := is_lower_alnum c || (c =? underscore).

(** [^[a-z0-9]+(-[a-z0-9]+)*$], the pattern the specification gives. *)
Definition spec_slug_re : regex := slug_pattern is_lower_alnum.

(** [^[a-z0-9_]+(-[a-z0-9_]+)*$] *)
Definition word_slug_re : regex := slug_pattern is_lower_word.

(** First and last character of a string, when it has one. *)
Definition first_char (s : pystr) : option N := head s.
Definition last_char (s : pystr) : option N := last s.

(** The characters a match of the expression can contain. *)
Fixpoint may_contain (r : regex) (c : N) : bool :=
  match r with
  | Cls p => p c
  | Cat r1 r2 => may_contain r1 c || may_contain r2 c
  | Star r => may_contain r c
  end.

(** No two neighbours of the string are both of the class. *)
Fixpoint no_adjacent (cls : N -> bool) (s : pystr) : bool :=
  match s with
  | [] => true
  | c :: rest =>
      match rest with
      | [] => true
      | d :: _ => negb (cls c && cls d) && no_adjacent cls rest
      end
  end.

(** The characters of a slug: [[a-z0-9_-]]. *)
Definition is_slug_char (c : N) : bool := is_lower_word c || (c =? hyphen).

(** What is left after the first substitution: [[a-z0-9_]], white space and
    hyphens. *)
Definition is_kept_char (c : N) : bool :=
  is_lower_word c || is_space c || (c =? hyphen).

(** ** The services and the run

    The storage provider is a store of files, each with the folders it lies
    in; the wiki is read only and answers through two functions of the
    [World].  Every call that leaves the process, every write to the local
    disk and every printed line is recorded in the trace. *)

Inductive exn : Type :=
| AssertionError (msg : string)
| TypeError (msg : string)
| FileNotFoundError (path : pystr)
| UnicodeDecodeError
| HttpError (status : N)
| ApiError (msg : pystr)
| OSError (errno : N).

(** A page as the wiki returns it. *)
Record Page : Type := { page_id : pystr; page_title : pystr }.

(** An entry of the storage listing. *)
Record DriveFile : Type := { f_id : pystr; f_name : pystr; f_mimeType : pystr }.

(** A file of the store: its listing entry, its parent folders and its
    content. *)
Record DriveItem : Type :=
  { item : DriveFile; parents : list pystr; media : pybytes }.

Record Credentials : Type := { account : pybytes; scopes : list pystr }.

Record Confluence : Type :=
  { url : pystr; username : option pystr; password : option pystr;
    api_version : pystr }.

Inductive event : Type :=
| EvWikiPagesByLabel (c : Confluence) (label : pystr) (start limit : N)
| EvWikiPageAsPdf (c : Confluence) (page : pystr)
| EvDriveList (pageSize : N)
| EvDriveCreate (name : pystr) (folders : list pystr) (mimetype : option pystr)
| EvDriveDelete (fileId : pystr)
| EvOpenWb (path : pystr)
| EvWrite (path : pystr) (content : pybytes)
| EvClose (path : pystr)
| EvPrint (line : pystr).

(** What a run finds around it: the environment variables, the file
    [credentials.json], the answers of the wiki, the identifier the store gives
    to a new file, the two library tables [main] consults, and the size of
    the buffer [open] gives to a binary file (the block size of the device,
    or [io.DEFAULT_BUFFER_SIZE]). *)
Record World : Type :=
  { environ : gmap string pystr;
    credentials_json : option pybytes;
    wiki_pages_by_label : Confluence -> pystr -> N -> N -> exn + list Page;
    wiki_page_as_pdf : Confluence -> pystr -> exn + pybytes;
    drive_new_id : list DriveItem -> pystr;
    guess_type : pystr -> option pystr;
    normalize_nfkd : pystr -> pystr;
    buffer_size : N }.

(** What a run works on: the store, the local files as they are on the
    disk, the buffers of the file objects that are open, and the trace.
    [faults] is the part of the outside that a run cannot see beforehand: the
    error, if any, with which the storage provider or the operating system
    answers the request that ends the given trace. *)
Record State : Type :=
  { drive : list DriveItem;
    tmpfs : gmap pystr pybytes;
    buffers : gmap pystr pybytes;
    faults : list event -> option exn;
    trace : list event }.

Definition M (A : Type) : Type := State -> (exn + A) * State.

Definition ret {A : Type} (a : A) : M A := fun st => (inr a, st).

Definition raise {A : Type} (e : exn) : M A := fun st => (inl e, st).

Definition bind {A B : Type} (m : M A) (k : A -> M B) : M B :=
  fun st =>
    match m st with
    | (inl e, st') => (inl e, st')
    | (inr a, st') => k a st'
    end.

#[export] Instance M_ret : MRet M := @ret.
#[export] Instance M_bind : MBind M := fun A B k m => bind m k.

(** The state with one more event in its trace. *)
Definition log (e : event) (st : State) : State :=
  {| drive := drive st; tmpfs := tmpfs st; buffers := buffers st;
     faults := faults st; trace := trace st ++ [e] |}.

Definition emit (e : event) : M unit := fun st => (inr tt, log e st).

(** A request to the storage provider or to the operating system: it is
    made, and answered with an error or not. *)
Definition request (e : event) : M unit :=
  fun st =>
    match faults st (trace st ++ [e]) with
    | Some x => (inl x, log e st)
    | None => (inr tt, log e st)
    end.

(** [try: m finally: cleanup]; an error of the clean-up replaces the
    outcome of [m]. *)
Definition finally {A : Type} (m : M A) (cleanup : M unit) : M A :=
  fun st =>
    match m st with
    | (r, st') =>
        match cleanup st' with
        | (inl e, st'') => (inl e, st'')
        | (inr _, st'') => (r, st'')
        end
    end.

Definition lift {A : Type} (r : exn + A) : M A :=
  match r with inl e => raise e | inr a => ret a end.

(** A [for] loop. *)
Fixpoint for_each {A : Type} (l : list A) (body : A -> M unit) : M unit :=
  match l with
  | [] => ret tt
  | a :: rest => body a ;; for_each rest body
  end.

Definition print (line : pystr) : M unit := emit (EvPrint line).

(** [assert value, msg] on a value of [os.getenv]: [None] and the empty
    string are false. *)
Definition truthy (value : option pystr) : bool :=
  match value with
  | Some (_ :: _) => true
  | _ => false
  end.

Definition assert (value : option pystr) (msg : string) : M unit :=
  if truthy value then ret tt else raise (AssertionError msg).

(** A value of [os.getenv] inside an f-string. *)
Definition format (value : option pystr) : pystr :=
  match value with
  | Some v => v
  | None => py "None"
  end.

(** *** The storage provider *)

Definition folder_mimeType : pystr := py "application/vnd.google-apps.folder".

(** [service.files().list(pageSize=n).execute().get("files", [])]: the first
    [n] files the account has access to, whatever folder they lie in. *)
Definition files_list (pageSize : N) : M (list DriveFile) :=
  bind (request (EvDriveList pageSize))
    (fun _ st =>
       (inr (List.map item (firstn (N.to_nat pageSize) (drive st))), st)).

Definition has_id (fileId : pystr) (it : DriveItem) : bool :=
  bool_decide (f_id (item it) = fileId).

(** [service.files().delete(fileId=i).execute()]: removes the file for good;
    an unknown identifier is answered with status 404. *)
Definition files_delete (fileId : pystr) : M unit :=
  bind (request (EvDriveDelete fileId))
    (fun _ st =>
       if existsb (has_id fileId) (drive st) then
         (inr tt,
          {| drive := List.filter (fun it => negb (has_id fileId it)) (drive st);
             tmpfs := tmpfs st; buffers := buffers st; faults := faults st;
             trace := trace st |})
       else (inl (HttpError 404), st)).

(** [service.files().create(body, media_body, fields="id").execute()] with the
    file opened by [MediaFileUpload]: a missing local file fails before the
    request; the bytes sent are those the file has on the disk at that
    moment; a media type that was not guessed is sent as octet-stream. *)
Definition files_create (w : World) (name : pystr) (folders : list pystr)
    (mime_type : option pystr) : M pystr :=
  fun st =>
    match tmpfs st !! name with
    | None => (inl (FileNotFoundError name), st)
    | Some bytes =>
        bind (request (EvDriveCreate name folders mime_type))
          (fun _ st =>
           let new := drive_new_id w (drive st) in
           let it := {| item := {| f_id := new; f_name := name;
                                   f_mimeType :=
                                     default (py "application/octet-stream")
                                       mime_type |};
                        parents := folders; media := bytes |} in
           (inr new, {| drive := drive st ++ [it]; tmpfs := tmpfs st;
                        buffers := buffers st; faults := faults st;
                        trace := trace st |})) st
    end.

Definition read_google_drive (scoped_credentials : Credentials)
    : M (option (list DriveFile)) :=
  items ← files_list 50;
  match items with
  | [] => print (py "No files found.") ;; ret None
  | _ => ret (Some items)
  end.

Definition upload_google_drive (w : World) (filename directory_id : pystr)
    (scoped_credentials : Credentials) : M pystr :=
  let mime_type := guess_type w filename in
  file ← files_create w filename [directory_id] mime_type;
  print (py "File ID: " ++ file) ;;
  ret file.

Definition delete_from_google_drive (file_id : pystr) (credentials : Credentials)
    : M unit :=
  files_delete file_id ;;
  print (py " deleted file ID " ++ file_id).

(** *** The wiki and the local files *)

Definition get_all_pages_by_label (w : World) (c : Confluence) (label : pystr)
    (start limit : N) : M (list Page) :=
  emit (EvWikiPagesByLabel c label start limit) ;;
  lift (wiki_pages_by_label w c label start limit).

Definition get_page_as_pdf (w : World) (c : Confluence) (page : pystr) : M pybytes :=
  emit (EvWikiPageAsPdf c page) ;;
  lift (wiki_page_as_pdf w c page).

(** [Credentials.from_service_account_file(path).with_scopes(scopes)] *)
Definition from_service_account_file (w : World) (path : pystr)
    (scopes : list pystr) : M Credentials :=
  match credentials_json w with
  | None => raise (FileNotFoundError path)
  | Some key => ret {| account := key; scopes := scopes |}
  end.

(** The last component of a path, and the longest name a file may have. *)
Fixpoint basename (path : pystr) : pystr :=
  match path with
  | [] => []
  | _ :: rest =>
      if forallb (fun c => negb (c =? slash)) path then path else basename rest
  end.

Definition name_max : N := 255.

(** [open(path, "wb")]: a name longer than [name_max] bytes (one per
    character in the ASCII names [main] builds) is refused with ENAMETOOLONG
    (errno 36); otherwise the file is created, or emptied when it exists,
    and the file object starts with an empty buffer.  The file object is
    named by its path. *)
Definition open_wb (path : pystr) : M pystr :=
  bind (request (EvOpenWb path))
    (fun _ =>
       if name_max <? N.of_nat (length (basename path)) then raise (OSError 36)
       else
         fun st =>
           (inr path,
            {| drive := drive st; tmpfs := <[path := []]> (tmpfs st);
               buffers := <[path := []]> (buffers st); faults := faults st;
               trace := trace st |})).

(** [pdf_file.write(content)] on the buffered writer: bytes that fit in
    the free part of the buffer stay there; otherwise the buffer is written
    out, and then bytes that are more than a whole buffer go to the disk at
    once, while fewer become the new content of the buffer. *)
Definition write (w : World) (pdf_file : pystr) (content : pybytes) : M unit :=
  bind (request (EvWrite pdf_file content)) (fun _ st =>
    let buffer := default [] (buffers st !! pdf_file) in
    let on_disk := default [] (tmpfs st !! pdf_file) in
    if N.of_nat (length content) <=? buffer_size w - N.of_nat (length buffer) then
      (inr tt, {| drive := drive st; tmpfs := tmpfs st;
                  buffers := <[pdf_file := buffer ++ content]> (buffers st);
                  faults := faults st; trace := trace st |})
    else if buffer_size w <? N.of_nat (length content) then
      (inr tt, {| drive := drive st;
                  tmpfs := <[pdf_file := on_disk ++ buffer ++ content]> (tmpfs st);
                  buffers := <[pdf_file := []]> (buffers st);
                  faults := faults st; trace := trace st |})
    else
      (inr tt, {| drive := drive st;
                  tmpfs := <[pdf_file := on_disk ++ buffer]> (tmpfs st);
                  buffers := <[pdf_file := content]> (buffers st);
                  faults := faults st; trace := trace st |})).

(** [pdf_file.close()]: what is left in the buffer is written out. *)
Definition close (pdf_file : pystr) : M unit :=
  bind (request (EvClose pdf_file)) (fun _ st =>
    (inr tt, {| drive := drive st;
                tmpfs := <[pdf_file := default [] (tmpfs st !! pdf_file)
                                       ++ default [] (buffers st !! pdf_file)]>
                           (tmpfs st);
                buffers := delete pdf_file (buffers st);
                faults := faults st; trace := trace st |})).

(** [with open(path, "wb") as pdf_file: body]: the file is closed when the
    body is left, with or without an error. *)
Definition with_open_wb {A : Type} (path : pystr) (body : pystr -> M A) : M A :=
  pdf_file ← open_wb path;
  finally (body pdf_file) (close pdf_file).

(** *** [main] *)

Definition drive_scopes : list pystr :=
  [ py "https://www.googleapis.com/auth/drive";
    py "https://www.googleapis.com/auth/drive.file";
    py "https://www.googleapis.com/auth/drive.appdata";
    py "https://www.googleapis.com/auth/drive.metadata.readonly" ].

Definition default_directory_id : pystr := py "1HsnsarPvc7UyD-fgvCcdx_Zm9FBhv4mM".

(** The [lambda] of the filter in [main]. *)
Definition not_folder (x : DriveFile) : bool :=
  negb (bool_decide (f_mimeType x = folder_mimeType)).

Definition tmp_path (title : pystr) : pystr := py "/tmp/" ++ title ++ py ".pdf".

(** The body of the second loop of [main]: render the page, write the
    bytes to the temporary file named after the slug of the title, upload
    that file. *)
Definition upload_page (w : World) (confluence : Confluence)
    (directory_id : pystr) (credentials : Credentials) (page : Page) : M unit :=
  content ← get_page_as_pdf w confluence (page_id page);
  title ← match slugify (normalize_nfkd w) (page_title page) with
           | Some title => ret title
           | None => raise UnicodeDecodeError
           end;
  with_open_wb (tmp_path title) (fun pdf_file =>
    write w pdf_file content ;;
    print (py "Downloaded " ++ title) ;;
    upload_google_drive w (tmp_path title) directory_id credentials ;;
    ret tt).

Definition main (w : World) : M unit :=
  let jira_domain := environ w !! "CONFLUENCE_DOMAIN"%string in
  let jira_token := environ w !! "JIRA_TOKEN"%string in
  let jira_user := environ w !! "JIRA_USER"%string in
  let confluence_label :=
    Some (default (py "jam") (environ w !! "CONFLUENCE_LABEL"%string)) in
  let directory_id :=
    default default_directory_id (environ w !! "GOOGLE_DRIVE_FOLDER_ID"%string) in
  assert jira_domain "CONFLUENCE_DOMAIN not set as environmental variable" ;;
  assert jira_token "JIRA_TOKEN not set as environmental variable" ;;
  assert jira_user "JIRA_USER not set as environmental variable" ;;
  assert confluence_label "CONFLUENCE_LABEL not set as environmental variable" ;;
  credentials ← from_service_account_file w (py "credentials.json") drive_scopes;
  let confluence :=
    {| url := py "https://" ++ format jira_domain ++ py ".atlassian.net";
       username := jira_user; password := jira_token;
       api_version := py "cloud" |} in
  pages ← get_all_pages_by_label w confluence (format confluence_label) 0 50;
  listing ← read_google_drive credentials;
  drive_files ←
    match listing with
    | None => raise (TypeError "'NoneType' object is not iterable")
    | Some items => ret (List.filter not_folder items)
    end;
  for_each drive_files
    (fun drive_file => delete_from_google_drive (f_id drive_file) credentials) ;;
  for_each pages (upload_page w confluence directory_id credentials).

(** *** Reading a trace *)

Definition deleted_ids (tr : list event) : list pystr :=
  flat_map (fun e => match e with EvDriveDelete i => [i] | _ => [] end) tr.

Definition uploaded (tr : list event) : list (pystr * list pystr) :=
  flat_map (fun e => match e with
                     | EvDriveCreate n ps _ => [(n, ps)]
                     | _ => []
                     end) tr.

Definition rendered (tr : list event) : list pystr :=
  flat_map (fun e => match e with EvWikiPageAsPdf _ p => [p] | _ => [] end) tr.

(** The calls that go over the network. *)
Definition is_network (e : event) : bool :=
  match e with
  | EvWikiPagesByLabel _ _ _ _ | EvWikiPageAsPdf _ _
  | EvDriveList _ | EvDriveCreate _ _ _ | EvDriveDelete _ => true
  | EvOpenWb _ | EvWrite _ _ | EvClose _ | EvPrint _ => false
  end.

Definition network_calls (tr : list event) : list event :=
  List.filter is_network tr.

(** The writes to local files and the uploads, in the order they happen. *)
Definition is_file_step (e : event) : bool :=
  match e with
  | EvOpenWb _ | EvWrite _ _ | EvDriveCreate _ _ _ | EvClose _ => true
  | _ => false
  end.

Definition file_steps (tr : list event) : list event :=
  List.filter is_file_step tr.

(** The storage provider and the operating system answer every request
    without an error. *)
Definition no_faults (st : State) : Prop := forall tr, faults st tr = None.

(** The state a run starts from when they do: the store, the local files,
    no file object open and nothing done yet. *)
Definition initial (store : list DriveItem) (files : gmap pystr pybytes) : State :=
  {| drive := store; tmpfs := files; buffers := ∅; faults := fun _ => None;
     trace := [] |}.

(** The storage listing a run gets from a store. *)
Definition listing_of (store : list DriveItem) : list DriveFile :=
  List.map item (firstn 50 store).

(** Every setting [main] asserts is given, and [credentials.json] is there. *)
Definition configured (w : World) : Prop :=
  truthy (environ w !! "CONFLUENCE_DOMAIN"%string) = true
  /\ truthy (environ w !! "JIRA_TOKEN"%string) = true
  /\ truthy (environ w !! "JIRA_USER"%string) = true
  /\ truthy (Some (default (py "jam") (environ w !! "CONFLUENCE_LABEL"%string))) = true
  /\ is_Some (credentials_json w).

(** The folder [main] uploads to. *)
Definition target_of (w : World) : pystr :=
  default default_directory_id (environ w !! "GOOGLE_DRIVE_FOLDER_ID"%string).

(** The store without the files that have one of the identifiers. *)
Definition purged (ids : list pystr) (store : list DriveItem) : list DriveItem :=
  List.filter (fun it => negb (bool_decide (f_id (item it) ∈ ids))) store.

(** A step that adds nothing to what a reading of the trace shows. *)
Definition silent {A X : Type} (read : list event -> list X) (m : M A) : Prop :=
  forall st, read (trace (m st).2) = read (trace st).

(** The file lies in the folder. *)
Definition in_folder (directory_id : pystr) (it : DriveItem) : bool :=
  bool_decide (directory_id ∈ parents it).

(** ** A concrete run

    A world with every setting given, a wiki that answers with [pages] and
    renders each page to the bytes of its identifier, and a store with the
    target folder, one file in it and one file in another folder. *)

Definition acme_environ : gmap string pystr :=
  list_to_map
    [ ("CONFLUENCE_DOMAIN"%string, py "acme");
      ("JIRA_TOKEN"%string, py "s3cret");
      ("JIRA_USER"%string, py "bot");
      ("GOOGLE_DRIVE_FOLDER_ID"%string, py "target") ].

(** The one row of the [mimetypes] table the run reaches. *)
Definition guess_pdf (filename : pystr) : option pystr :=
  if bool_decide (filename = py "/tmp/.pdf") then None
  else if bool_decide (skipn (length filename - 4)%nat filename = py ".pdf") then Some (py "application/pdf")
  else None.

Definition acme_world (env : gmap string pystr) (pages : list Page) : World :=
  {| environ := env;
     credentials_json := Some (py "{}");
     wiki_pages_by_label := fun _ _ _ _ => inr pages;
     wiki_page_as_pdf := fun _ page => inr (py "%PDF " ++ page);
     drive_new_id := fun store => py "new" ++ repeat 33 (length store)%nat;
     guess_type := guess_pdf;
     normalize_nfkd := nfkd_latin1;
     buffer_size := 8192 |}.

Definition target_folder : DriveItem :=
  {| item := {| f_id := py "target"; f_name := py "jam";
                f_mimeType := folder_mimeType |};
     parents := []; media := [] |}.

Definition old_upload : DriveItem :=
  {| item := {| f_id := py "f1"; f_name := py "/tmp/old.pdf";
                f_mimeType := py "application/pdf" |};
     parents := [py "target"]; media := py "%PDF old" |}.

Definition other_notes : DriveItem :=
  {| item := {| f_id := py "f2"; f_name := py "notes.txt";
                f_mimeType := py "text/plain" |};
     parents := [py "other"]; media := py "notes" |}.

Definition acme_store : list DriveItem := [target_folder; old_upload; other_notes].

Definition weekly_sync (page : pystr) : Page :=
  {| page_id := page; page_title := py "Weekly Sync" |}.

(** ** Further readings of a slug and of a run *)

(** [[a-zA-Z0-9]], the ASCII letters and digits. *)
Definition is_alnum (c : N) : bool := is_digit c || is_upper c || is_lower c.

(** The full stop. *)
Definition full_stop : N := 46.

(** A step that relates the state it starts from to the state it ends in. *)
Definition keeps {A : Type} (R : State -> State -> Prop) (m : M A) : Prop :=
  forall st, R st (m st).2.

(** The trace has grown by events that satisfy [P]. *)
Definition extends_with (P : list event -> Prop) (st st' : State) : Prop :=
  exists evs, trace st' = trace st ++ evs /\ P evs.

(** The local files of [st'] are those of [st], but for files
    [/tmp/<slug>.pdf] that were written; no file is gone. *)
Definition tmp_writes_only (st st' : State) : Prop :=
  forall path,
    (is_Some (tmpfs st !! path) -> is_Some (tmpfs st' !! path))
    /\ ((exists title,
           path = tmp_path title /\ forallb is_slug_char title = true)
        \/ tmpfs st' !! path = tmpfs st !! path).

(** The bytes that a first write of [content] to a file just opened puts
    on the disk at once: all of them when they are more than a whole buffer,
    none otherwise.  They are what an upload made before the file is closed
    finds in the file. *)
Definition sent (w : World) (content : pybytes) : pybytes :=
  if buffer_size w <? N.of_nat (length content) then content else [].



(** Both at once, for the events of a stage of [main]. *)
Definition follows (P : event -> Prop) (st st' : State) : Prop :=
  extends_with (Forall P) st st' /\ tmp_writes_only st st'.

(** The client [main] builds from the environment, the label it asks for and
    the credentials it reads from a key. *)
Definition confluence_of (w : World) : Confluence :=
  {| url := py "https://" ++ format (environ w !! "CONFLUENCE_DOMAIN"%string)
              ++ py ".atlassian.net";
     username := environ w !! "JIRA_USER"%string;
     password := environ w !! "JIRA_TOKEN"%string;
     api_version := py "cloud" |}.

Definition label_of (w : World) : pystr :=
  default (py "jam") (environ w !! "CONFLUENCE_LABEL"%string).

Definition credentials_of (key : pybytes) : Credentials :=
  {| account := key; scopes := drive_scopes |}.

(** The [title] of the second loop of [main] for a page. *)
Definition slug_of (w : World) (page : Page) : pystr :=
  default [] (slugify (normalize_nfkd w) (page_title page)).

(** What an upload of the second loop of [main] may look like. *)
Definition upload_of_run (w : World) (e : event) : Prop :=
  match e with
  | EvDriveCreate name folders mimetype =>
      folders = [target_of w] /\ mimetype = guess_type w name
      /\ exists title, name = tmp_path title /\ forallb is_slug_char title = true
  | _ => True
  end.

(** The events of the first loop and those of the second. *)
Definition purge_event (e : event) : Prop :=
  match e with EvDriveDelete _ | EvPrint _ => True | _ => False end.

Definition upload_event (e : event) : Prop :=
  match e with
  | EvWikiPageAsPdf _ _ | EvOpenWb _ | EvWrite _ _ | EvClose _ | EvPrint _
  | EvDriveCreate _ _ _ => True
  | _ => False
  end.

(** The name and the folders of a file of the store. *)
Definition placed (it : DriveItem) : pystr * list pystr :=
  (f_name (item it), parents it).

(** The concrete world with a wiki that lists the pages and fails to render
    them, and the one without [credentials.json]. *)
Definition render_down (pages : list Page) : World :=
  {| environ := acme_environ;
     credentials_json := Some (py "{}");
     wiki_pages_by_label := fun _ _ _ _ => inr pages;
     wiki_page_as_pdf := fun _ _ => inl (ApiError (py "503"));
     drive_new_id := fun store => py "new" ++ repeat 33 (length store)%nat;
     guess_type := guess_pdf;
     normalize_nfkd := nfkd_latin1;
     buffer_size := 8192 |}.

Definition no_key : World :=
  {| environ := acme_environ;
     credentials_json := None;
     wiki_pages_by_label := fun _ _ _ _ => inr [];
     wiki_page_as_pdf := fun _ page => inr page;
     drive_new_id := fun store => py "new";
     guess_type := guess_pdf;
     normalize_nfkd := nfkd_latin1;
     buffer_size := 8192 |}.

Definition wiki_down : World :=
  {| environ := acme_environ;
     credentials_json := Some (py "{}");
     wiki_pages_by_label := fun _ _ _ _ => inl (ApiError (py "401"));
     wiki_page_as_pdf := fun _ page => inr page;
     drive_new_id := fun store => py "new";
     guess_type := guess_pdf;
     normalize_nfkd := nfkd_latin1;
     buffer_size := 8192 |}.

(** * Properties *)

(** ** Characters *)

Ltac char_unfold :=
  unfold is_kept_char, is_slug_char, is_lower_word, is_lower_alnum,
    not_word_space_hyphen, hyphen_or_space, hyphen_or_underscore, is_word,
    is_space, is_ascii, is_digit, is_upper, is_lower, hyphen, underscore in *.

Ltac bool_props :=
  repeat progress rewrite ?negb_true_iff, ?negb_false_iff, ?andb_true_iff, ?orb_true_iff,
    ?andb_false_iff, ?orb_false_iff, ?N.leb_le, ?N.ltb_lt, ?N.eqb_eq,
    ?N.leb_gt, ?N.ltb_ge, ?N.eqb_neq in *.

Ltac char_cases :=
  unfold lower_char in *;
  repeat match goal with
  | H : context [if is_upper ?c then _ else _] |- _ =>
      let E := fresh "E" in destruct (is_upper c) eqn:E
  | |- context [if is_upper ?c then _ else _] =>
      let E := fresh "E" in destruct (is_upper c) eqn:E
  end;
  char_unfold; bool_props; try lia.

Lemma kept_after_lower (c : N) :
  is_ascii c = true ->
  not_word_space_hyphen (lower_char c) = false ->
  is_kept_char (lower_char c) = true.
Proof. intros Ha Hk. char_cases. Qed.

Lemma kept_not_class_slug (c : N) :
  is_kept_char c = true -> hyphen_or_space c = false -> is_lower_word c = true.
Proof. intros Hk Hc. char_cases. Qed.

Lemma lower_word_slug (c : N) : is_lower_word c = true -> is_slug_char c = true.
Proof. intros H. unfold is_slug_char. rewrite H. reflexivity. Qed.

Lemma lower_word_not_hyphen (c : N) : is_lower_word c = true -> (c =? hyphen) = false.
Proof. intros H. char_cases. Qed.

Lemma slug_char_ascii (c : N) : is_slug_char c = true -> is_ascii c = true.
Proof. intros H. char_cases. Qed.

Lemma slug_char_lower (c : N) : is_slug_char c = true -> lower_char c = c.
Proof. intros H. char_cases. Qed.

Lemma slug_char_word (c : N) : is_slug_char c = true -> not_word_space_hyphen c = false.
Proof. intros H. char_cases. Qed.

Lemma slug_char_not_space (c : N) : is_slug_char c = true -> is_space c = false.
Proof. intros H. char_cases. Qed.

Lemma slug_char_class (c : N) :
  is_slug_char c = true -> hyphen_or_space c = true -> c = hyphen.
Proof. intros H1 H2. char_cases. Qed.

(** ** The pieces of [slugify] on lists *)

Lemma encode_ascii_ignore_ascii (value : pystr) :
  forallb is_ascii (encode_ascii_ignore value) = true.
Proof.
  unfold encode_ascii_ignore. induction value as [|c value IH]; simpl; [reflexivity|].
  destruct (is_ascii c) eqn:E; simpl; [rewrite E|]; exact IH.
Qed.

Lemma decode_encode (value : pystr) :
  decode_ascii (encode_ascii_ignore value) = Some (encode_ascii_ignore value).
Proof. unfold decode_ascii. now rewrite encode_ascii_ignore_ascii. Qed.

Lemma encode_ascii_id (value : pystr) :
  forallb is_ascii value = true -> encode_ascii_ignore value = value.
Proof.
  unfold encode_ascii_ignore. induction value as [|c value IH]; simpl; [reflexivity|].
  intros H. apply andb_true_iff in H as [Hc H]. rewrite Hc, IH; trivial.
Qed.

Lemma slug_chars_ascii (s : pystr) :
  forallb is_slug_char s = true -> forallb is_ascii s = true.
Proof.
  induction s as [|c s IH]; simpl; [reflexivity|].
  intros H. apply andb_true_iff in H as [Hc H].
  now rewrite (slug_char_ascii c Hc), IH.
Qed.

Lemma lower_slug_chars (s : pystr) :
  forallb is_slug_char s = true -> lower s = s.
Proof.
  unfold lower. induction s as [|c s IH]; simpl; [reflexivity|].
  intros H. apply andb_true_iff in H as [Hc H].
  now rewrite (slug_char_lower c Hc), IH.
Qed.

Lemma re_sub_class_slug_chars (s : pystr) :
  forallb is_slug_char s = true -> re_sub_class not_word_space_hyphen [] s = s.
Proof.
  unfold re_sub_class. induction s as [|c s IH]; simpl; [reflexivity|].
  intros H. apply andb_true_iff in H as [Hc H].
  now rewrite (slug_char_word c Hc), IH.
Qed.

Lemma kept_after_first_sub (value : pystr) :
  forallb is_ascii value = true ->
  forallb is_kept_char (re_sub_class not_word_space_hyphen [] (lower value)) = true.
Proof.
  unfold re_sub_class, lower. induction value as [|c value IH]; simpl; [reflexivity|].
  intros H. apply andb_true_iff in H as [Hc H].
  destruct (not_word_space_hyphen (lower_char c)) eqn:E; simpl; [now apply IH|].
  now rewrite (kept_after_lower c Hc E), IH.
Qed.

Lemma no_adjacent_cons (cls : N -> bool) (c d : N) (rest : pystr) :
  no_adjacent cls (c :: d :: rest)
  = negb (cls c && cls d) && no_adjacent cls (d :: rest).
Proof. reflexivity. Qed.

(** After the second substitution only slug characters are left, no two
    hyphens are neighbours, and a run that was open at the start leaves no
    hyphen in front. *)
Lemma re_sub_class_plus_from_slug (in_run : bool) (value : pystr) :
  forallb is_kept_char value = true ->
  forallb is_slug_char
    (re_sub_class_plus_from hyphen_or_space [hyphen] in_run value) = true
  /\ no_adjacent (N.eqb hyphen)
       (re_sub_class_plus_from hyphen_or_space [hyphen] in_run value) = true
  /\ (in_run = true ->
      head (re_sub_class_plus_from hyphen_or_space [hyphen] in_run value)
        <> Some hyphen).
Proof.
  revert in_run. induction value as [|c value IH]; intros in_run H; simpl.
  - repeat split; intros; discriminate.
  - simpl in H. apply andb_true_iff in H as [Hc H].
    destruct (hyphen_or_space c) eqn:E.
    + destruct (IH true H) as (Hs & Hn & Hh). destruct in_run; simpl.
      * repeat split; auto.
      * repeat split; [now rewrite Hs | | intros; discriminate].
        destruct (re_sub_class_plus_from hyphen_or_space [hyphen] true value)
          as [|d rest] eqn:Er; [reflexivity|].
        change (no_adjacent (N.eqb hyphen) (hyphen :: d :: rest) = true).
        rewrite no_adjacent_cons, Hn, andb_true_r, N.eqb_refl. cbn [andb].
        destruct (N.eqb_spec hyphen d) as [<-|]; [|reflexivity].
        exfalso. now apply Hh.
    + destruct (IH false H) as (Hs & Hn & _).
      pose proof (kept_not_class_slug c Hc E) as Hw.
      repeat split.
      * simpl. now rewrite (lower_word_slug c Hw), Hs.
      * destruct (re_sub_class_plus_from hyphen_or_space [hyphen] false value)
          as [|d rest] eqn:Er; [reflexivity|].
        rewrite no_adjacent_cons, Hn, andb_true_r.
        rewrite (N.eqb_sym hyphen c), (lower_word_not_hyphen c Hw). reflexivity.
      * intros _ Heq. simpl in Heq. injection Heq as ->. discriminate Hw.
Qed.

(** On a slug the second substitution changes nothing. *)
Lemma re_sub_class_plus_from_id (in_run : bool) (s : pystr) :
  forallb is_slug_char s = true ->
  no_adjacent (N.eqb hyphen) s = true ->
  (in_run = true -> head s <> Some hyphen) ->
  re_sub_class_plus_from hyphen_or_space [hyphen] in_run s = s.
Proof.
  revert in_run. induction s as [|c s IH]; intros in_run Hs Hn Hh; [reflexivity|].
  simpl in Hs. apply andb_true_iff in Hs as [Hc Hs].
  assert (Hn' : no_adjacent (N.eqb hyphen) s = true).
  { destruct s; [reflexivity|].
    rewrite no_adjacent_cons in Hn. now apply andb_true_iff in Hn as [_ Hn]. }
  simpl. destruct (hyphen_or_space c) eqn:E.
  - pose proof (slug_char_class c Hc E) as ->.
    destruct in_run; [exfalso; now apply Hh|].
    simpl. f_equal. apply IH; trivial.
    intros _ Heq. destruct s as [|d s]; [discriminate|].
    simpl in Heq. injection Heq as ->.
    rewrite no_adjacent_cons, N.eqb_refl in Hn. discriminate.
  - f_equal. apply IH; trivial. intros; discriminate.
Qed.

(** ** Stripping *)

Lemma lstrip_suffix (chars : N -> bool) (s : pystr) :
  exists pre, s = pre ++ lstrip chars s.
Proof.
  induction s as [|c s [pre IH]]; [now exists []|]. simpl.
  destruct (chars c); [|now exists []].
  exists (c :: pre). simpl. now f_equal.
Qed.

Lemma lstrip_head (chars : N -> bool) (s : pystr) (c : N) :
  head (lstrip chars s) = Some c -> chars c = false.
Proof.
  induction s as [|d s IH]; simpl; [discriminate|].
  destruct (chars d) eqn:E; [exact IH|].
  simpl. intros H. injection H as <-. exact E.
Qed.

Lemma lstrip_id (chars : N -> bool) (s : pystr) :
  (forall c, head s = Some c -> chars c = false) -> lstrip chars s = s.
Proof.
  destruct s as [|c s]; [reflexivity|]. intros H. simpl.
  now rewrite (H c eq_refl).
Qed.

Lemma rstrip_prefix (chars : N -> bool) (s : pystr) :
  exists suf, s = rstrip chars s ++ suf.
Proof.
  unfold rstrip. destruct (lstrip_suffix chars (reverse s)) as [pre H].
  exists (reverse pre).
  rewrite <- reverse_app, <- H. symmetry. apply reverse_involutive.
Qed.

Lemma rstrip_last (chars : N -> bool) (s : pystr) (c : N) :
  last (rstrip chars s) = Some c -> chars c = false.
Proof. unfold rstrip. rewrite last_reverse. apply lstrip_head. Qed.

Lemma rstrip_id (chars : N -> bool) (s : pystr) :
  (forall c, last s = Some c -> chars c = false) -> rstrip chars s = s.
Proof.
  intros H. unfold rstrip. rewrite lstrip_id; [apply reverse_involutive|].
  intros c. rewrite head_reverse. apply H.
Qed.

Lemma strip_infix (chars : N -> bool) (s : pystr) :
  exists pre suf, s = pre ++ strip chars s ++ suf.
Proof.
  unfold strip. destruct (lstrip_suffix chars s) as [pre Hp].
  destruct (rstrip_prefix chars (lstrip chars s)) as [suf Hs].
  exists pre, suf. now rewrite <- Hs.
Qed.

Lemma strip_head (chars : N -> bool) (s : pystr) (c : N) :
  head (strip chars s) = Some c -> chars c = false.
Proof.
  unfold strip. intros H.
  destruct (rstrip_prefix chars (lstrip chars s)) as [suf Hs].
  apply (lstrip_head chars s). rewrite Hs.
  destruct (rstrip chars (lstrip chars s)); [discriminate|exact H].
Qed.

Lemma strip_last (chars : N -> bool) (s : pystr) (c : N) :
  last (strip chars s) = Some c -> chars c = false.
Proof. unfold strip. apply rstrip_last. Qed.

Lemma strip_id (chars : N -> bool) (s : pystr) :
  (forall c, head s = Some c -> chars c = false) ->
  (forall c, last s = Some c -> chars c = false) ->
  strip chars s = s.
Proof.
  intros Hh Hl. unfold strip. rewrite (lstrip_id _ _ Hh). now apply rstrip_id.
Qed.

Lemma no_adjacent_app_r (cls : N -> bool) (a b : pystr) :
  no_adjacent cls (a ++ b) = true -> no_adjacent cls b = true.
Proof.
  induction a as [|c a IH]; [trivial|]. intros H. apply IH.
  change (no_adjacent cls (c :: (a ++ b)) = true) in H.
  destruct (a ++ b) as [|d r] eqn:E; [reflexivity|].
  rewrite no_adjacent_cons in H. now apply andb_true_iff in H as [_ H].
Qed.

Lemma no_adjacent_app_l (cls : N -> bool) (a b : pystr) :
  no_adjacent cls (a ++ b) = true -> no_adjacent cls a = true.
Proof.
  induction a as [|c a IH]; [reflexivity|]. intros H.
  destruct a as [|d a]; [reflexivity|].
  change (no_adjacent cls (c :: d :: (a ++ b)) = true) in H.
  rewrite no_adjacent_cons in H. apply andb_true_iff in H as [H1 H2].
  rewrite no_adjacent_cons, H1. now apply IH.
Qed.

(** What stripping keeps of the properties of a string. *)
Lemma strip_slug (s : pystr) :
  forallb is_slug_char s = true ->
  no_adjacent (N.eqb hyphen) s = true ->
  forallb is_slug_char (strip hyphen_or_underscore s) = true
  /\ no_adjacent (N.eqb hyphen) (strip hyphen_or_underscore s) = true.
Proof.
  intros Hs Hn. destruct (strip_infix hyphen_or_underscore s) as (pre & suf & H).
  rewrite H in Hs, Hn. rewrite !forallb_app in Hs.
  apply andb_true_iff in Hs as [_ Hs]. apply andb_true_iff in Hs as [Hs _].
  split; [exact Hs|].
  apply no_adjacent_app_r in Hn. now apply no_adjacent_app_l in Hn.
Qed.

(** ** Matching the slug pattern *)

Lemma matches_star_cls (w : N -> bool) (s : pystr) :
  forallb w s = true -> matches (Star (Cls w)) s.
Proof.
  induction s as [|c s IH]; simpl; intros H; [constructor|].
  apply andb_true_iff in H as [Hc H].
  change (c :: s) with ([c] ++ s). apply MStarApp; [now constructor|auto].
Qed.

Lemma matches_plus_cls (w : N -> bool) (c : N) (s : pystr) :
  w c = true -> forallb w s = true -> matches (Plus (Cls w)) (c :: s).
Proof.
  intros Hc Hs. change (c :: s) with ([c] ++ s).
  apply MCat; [now constructor|now apply matches_star_cls].
Qed.

Lemma matches_may_contain (r : regex) (s : pystr) :
  matches r s -> Forall (fun c => may_contain r c = true) s.
Proof.
  induction 1 as [p c Hc|r1 r2 s1 s2 _ IH1 _ IH2| |r s1 s2 _ IH1 _ IH2]; simpl.
  - now repeat constructor.
  - apply Forall_app. split.
    + eapply Forall_impl; [exact IH1|]. simpl. intros c ->. reflexivity.
    + eapply Forall_impl; [exact IH2|]. simpl. intros c ->. apply orb_true_r.
  - constructor.
  - apply Forall_app. split; assumption.
Qed.

(** A string of words and single hyphens that does not end in a hyphen is a
    run of word characters followed by groups of a hyphen and a word. *)
Lemma slug_words_groups (w : N -> bool) (s : pystr) :
  w hyphen = false ->
  forallb (fun c => w c || (c =? hyphen)) s = true ->
  no_adjacent (N.eqb hyphen) s = true ->
  last s <> Some hyphen ->
  exists ws gs,
    s = ws ++ gs /\ forallb w ws = true
    /\ matches (Star (Cat (Cls (N.eqb hyphen)) (Plus (Cls w)))) gs
    /\ (gs = [] \/ head gs = Some hyphen).
Proof.
  intros Hw. induction s as [|c s IH]; intros Hs Hn Hl.
  - exists [], []. repeat split; [constructor|now left].
  - simpl in Hs. apply andb_true_iff in Hs as [Hc Hs].
    assert (Hn' : no_adjacent (N.eqb hyphen) s = true)
      by (apply (no_adjacent_app_r _ [c]); exact Hn).
    assert (Hl' : last s <> Some hyphen).
    { destruct s as [|d s]; [discriminate|]. now rewrite last_cons_cons in Hl. }
    destruct (IH Hs Hn' Hl') as (ws & gs & -> & Hws & Hgs & Hg).
    destruct (w c) eqn:Ec.
    + exists (c :: ws), gs. repeat split; trivial. simpl. now rewrite Ec.
    + simpl in Hc. apply N.eqb_eq in Hc as ->.
      destruct ws as [|e ws].
      * exfalso. cbn [app] in *. destruct Hg as [-> | Hg]; [now apply Hl|].
        destruct gs as [|d gs]; [discriminate|].
        simpl in Hg. injection Hg as ->.
        rewrite no_adjacent_cons, N.eqb_refl in Hn. discriminate.
      * simpl in Hws. apply andb_true_iff in Hws as [He Hws].
        exists [], ((hyphen :: e :: ws) ++ gs). repeat split; [|now right].
        apply MStarApp; [|exact Hgs].
        change (hyphen :: e :: ws) with ([hyphen] ++ (e :: ws)).
        apply MCat; [constructor; apply N.eqb_refl|now apply matches_plus_cls].
Qed.

Lemma slug_matches (w : N -> bool) (s : pystr) :
  w hyphen = false ->
  s <> [] ->
  forallb (fun c => w c || (c =? hyphen)) s = true ->
  no_adjacent (N.eqb hyphen) s = true ->
  head s <> Some hyphen ->
  last s <> Some hyphen ->
  matches (slug_pattern w) s.
Proof.
  intros Hw Hne Hs Hn Hh Hl.
  destruct (slug_words_groups w s Hw Hs Hn Hl) as (ws & gs & -> & Hws & Hgs & Hg).
  destruct ws as [|e ws].
  - exfalso. cbn [app] in *. destruct Hg as [-> | Hg]; [now apply Hne|now apply Hh].
  - simpl in Hws. apply andb_true_iff in Hws as [He Hws].
    apply MCat; [now apply matches_plus_cls|exact Hgs].
Qed.

(** ** [slugify] *)

Section SlugifyFacts.

Variable nfkd : pystr -> pystr.

(** The decoding step never fails: [slugify] always returns. *)
Lemma slugify_eq (x : pystr) :
  slugify nfkd x
  = Some (strip hyphen_or_underscore
            (re_sub_class_plus hyphen_or_space [hyphen]
               (re_sub_class not_word_space_hyphen []
                  (lower (encode_ascii_ignore (nfkd x)))))).
Proof. unfold slugify. rewrite decode_encode. reflexivity. Qed.

Lemma slugify_shape (x y : pystr) :
  slugify nfkd x = Some y ->
  forallb is_slug_char y = true
  /\ no_adjacent (N.eqb hyphen) y = true
  /\ (forall c, head y = Some c -> hyphen_or_underscore c = false)
  /\ (forall c, last y = Some c -> hyphen_or_underscore c = false).
Proof.
  rewrite slugify_eq. intros H. injection H as <-.
  pose proof (kept_after_first_sub _ (encode_ascii_ignore_ascii (nfkd x))) as Hk.
  destruct (re_sub_class_plus_from_slug false _ Hk) as (Hs & Hn & _).
  destruct (strip_slug _ Hs Hn) as [Hs' Hn'].
  repeat split; trivial; intros c; [apply strip_head|apply strip_last].
Qed.

(** C2, as amended: the slug is empty or matches
    [^[a-z0-9_]+(-[a-z0-9_]+)*$]; it neither starts nor ends with a hyphen
    or an underscore, and it holds no white space. *)
Theorem slugify_matches_word_pattern (x : pystr) :
  exists y,
    slugify nfkd x = Some y
    /\ (y = [] \/ matches word_slug_re y)
    /\ (forall c, first_char y = Some c -> hyphen_or_underscore c = false)
    /\ (forall c, last_char y = Some c -> hyphen_or_underscore c = false)
    /\ (forall c, In c y -> is_space c = false).
Proof.
  destruct (slugify nfkd x) as [y|] eqn:E; [|now rewrite slugify_eq in E].
  exists y. destruct (slugify_shape x y E) as (Hs & Hn & Hh & Hl).
  repeat split; trivial.
  - destruct y as [|c y]; [now left|right].
    apply slug_matches; trivial; try discriminate.
    + intros Heq. specialize (Hh _ Heq). discriminate.
    + intros Heq. specialize (Hl _ Heq). discriminate.
  - intros c Hc. apply slug_char_not_space.
    rewrite forallb_forall in Hs. now apply Hs.
Qed.

Hypothesis nfkd_ascii :
  forall s, forallb is_ascii s = true -> nfkd s = s.

Lemma slugify_fixed (y : pystr) :
  forallb is_slug_char y = true ->
  no_adjacent (N.eqb hyphen) y = true ->
  (forall c, head y = Some c -> hyphen_or_underscore c = false) ->
  (forall c, last y = Some c -> hyphen_or_underscore c = false) ->
  slugify nfkd y = Some y.
Proof.
  intros Hs Hn Hh Hl. rewrite slugify_eq. f_equal.
  rewrite (nfkd_ascii _ (slug_chars_ascii _ Hs)).
  rewrite (encode_ascii_id _ (slug_chars_ascii _ Hs)).
  rewrite (lower_slug_chars _ Hs), (re_sub_class_slug_chars _ Hs).
  unfold re_sub_class_plus. rewrite re_sub_class_plus_from_id; trivial.
  - now apply strip_id.
  - intros; discriminate.
Qed.

(** C7: [slugify] returns on every string, returns the same slug for the
    same string, and applied to its own result returns that result. *)
Theorem slugify_idempotent (x : pystr) :
  (exists y, slugify nfkd x = Some y)
  /\ (forall x', x' = x -> slugify nfkd x' = slugify nfkd x)
  /\ (slugify nfkd x ≫= slugify nfkd) = slugify nfkd x.
Proof.
  split; [rewrite slugify_eq; eauto|]. split; [now intros ? ->|].
  destruct (slugify nfkd x) as [y|] eqn:E; [|reflexivity].
  destruct (slugify_shape x y E) as (Hs & Hn & Hh & Hl).
  simpl. now apply slugify_fixed.
Qed.

End SlugifyFacts.

Lemma nfkd_latin1_ascii (s : pystr) :
  forallb is_ascii s = true -> nfkd_latin1 s = s.
Proof.
  unfold nfkd_latin1. induction s as [|c s IH]; simpl; [reflexivity|].
  intros H. apply andb_true_iff in H as [Hc H]. rewrite (IH H).
  assert (Hlt : c < 128) by (now apply N.ltb_lt).
  assert (Hc' : nfkd_latin1_char c = [c]); [|now rewrite Hc'].
  destruct c as [|p]; [reflexivity|].
  do 8 (destruct p as [p|p|]; try reflexivity); lia.
Qed.

Lemma slugify_idempotent_witness :
  (exists y, slugify nfkd_latin1 cafe_title = Some y)
  /\ (forall x', x' = cafe_title ->
      slugify nfkd_latin1 x' = slugify nfkd_latin1 cafe_title)
  /\ (slugify nfkd_latin1 cafe_title ≫= slugify nfkd_latin1)
     = slugify nfkd_latin1 cafe_title.
Proof. exact (slugify_idempotent nfkd_latin1 nfkd_latin1_ascii cafe_title). Defined.

(** C2, as the specification states it, fails on a title with an underscore
    inside: the slug of [a_b] is [a_b], which is not empty and does not match
    [^[a-z0-9]+(-[a-z0-9]+)*$]. *)
Lemma slugify_underscore_counterexample :
  slugify nfkd_latin1 (py "a_b") = Some (py "a_b")
  /\ py "a_b" <> []
  /\ ~ matches spec_slug_re (py "a_b").
Proof.
  split; [reflexivity|]. split; [discriminate|]. intros H.
  apply matches_may_contain in H.
  apply Forall_cons in H as [_ H]. apply Forall_cons in H as [H _].
  discriminate H.
Qed.

(** C9: the slug of "Q3 Planning Notes!!" is "q3-planning-notes". *)
Theorem slugify_q3_planning_notes :
  slugify nfkd_latin1 q3_title = Some (py "q3-planning-notes").
Proof. reflexivity. Qed.

(** C3, as amended: the slug of the title with the accents and the em dash is
    "cafedeja-vu"; the em dash is dropped with the accents and leaves no
    hyphen between "cafe" and "deja". *)
Theorem slugify_cafe_deja_vu :
  slugify nfkd_latin1 cafe_title = Some (py "cafedeja-vu").
Proof. reflexivity. Qed.

(** C3, as the specification states it, fails: the slug is not
    "cafe-deja-vu". *)
Lemma slugify_cafe_counterexample :
  slugify nfkd_latin1 cafe_title <> Some (py "cafe-deja-vu").
Proof. discriminate. Qed.

(** ** The run *)

Lemma bind_raise {A B : Type} (m : M A) (k : A -> M B) (st st' : State) (e : exn) :
  m st = (inl e, st') -> (m ≫= k) st = (inl e, st').
Proof. intros H. unfold mbind, M_bind, bind. now rewrite H. Qed.

Lemma bind_ret {A B : Type} (m : M A) (k : A -> M B) (st st' : State) (a : A) :
  m st = (inr a, st') -> (m ≫= k) st = k a st'.
Proof. intros H. unfold mbind, M_bind, bind. now rewrite H. Qed.

Lemma assert_true (value : option pystr) (msg : string) (st : State) :
  truthy value = true -> assert value msg st = (inr tt, st).
Proof. intros H. unfold assert. now rewrite H. Qed.

Lemma assert_false (value : option pystr) (msg : string) (st : State) :
  truthy value = false -> assert value msg st = (inl (AssertionError msg), st).
Proof. intros H. unfold assert. now rewrite H. Qed.

(** C5: when the domain, the token or the user is unset (or empty), the run
    stops with an assertion error in the state it started from: nothing was
    sent to the wiki or to the store, and nothing was written. *)
Theorem missing_configuration_halts (w : World) (st : State) :
  truthy (environ w !! "CONFLUENCE_DOMAIN"%string) = false
  \/ truthy (environ w !! "JIRA_TOKEN"%string) = false
  \/ truthy (environ w !! "JIRA_USER"%string) = false ->
  exists msg,
    main w st = (inl (AssertionError msg), st)
    /\ network_calls (trace (main w st).2) = network_calls (trace st).
Proof.
  intros H. unfold main.
  destruct (truthy (environ w !! "CONFLUENCE_DOMAIN"%string)) eqn:E1.
  2: { eexists. erewrite bind_raise by (now apply assert_false). split; reflexivity. }
  erewrite bind_ret by (now apply assert_true).
  destruct (truthy (environ w !! "JIRA_TOKEN"%string)) eqn:E2.
  2: { eexists. erewrite bind_raise by (now apply assert_false). split; reflexivity. }
  erewrite bind_ret by (now apply assert_true).
  destruct (truthy (environ w !! "JIRA_USER"%string)) eqn:E3.
  2: { eexists. erewrite bind_raise by (now apply assert_false). split; reflexivity. }
  exfalso. destruct H as [H|[H|H]]; discriminate.
Qed.

(** *** Reading the trace of a step *)

Lemma deleted_ids_app (tr1 tr2 : list event) :
  deleted_ids (tr1 ++ tr2) = deleted_ids tr1 ++ deleted_ids tr2.
Proof. apply flat_map_app. Qed.

Lemma uploaded_app (tr1 tr2 : list event) :
  uploaded (tr1 ++ tr2) = uploaded tr1 ++ uploaded tr2.
Proof. apply flat_map_app. Qed.

Lemma rendered_app (tr1 tr2 : list event) :
  rendered (tr1 ++ tr2) = rendered tr1 ++ rendered tr2.
Proof. apply flat_map_app. Qed.

Lemma file_steps_app (tr1 tr2 : list event) :
  file_steps (tr1 ++ tr2) = file_steps tr1 ++ file_steps tr2.
Proof. apply List.filter_app. Qed.

Section Silent.

Context {X : Type} (read : list event -> list X).
Hypothesis read_app : forall tr1 tr2, read (tr1 ++ tr2) = read tr1 ++ read tr2.

Lemma silent_ret {A : Type} (a : A) : silent read (ret a).
Proof. intros st. reflexivity. Qed.

Lemma silent_raise {A : Type} (e : exn) : silent read (@raise A e).
Proof. intros st. reflexivity. Qed.

Lemma silent_lift {A : Type} (r : exn + A) : silent read (lift r).
Proof. destruct r; intros st; reflexivity. Qed.

Lemma silent_bind {A B : Type} (m : M A) (k : A -> M B) :
  silent read m -> (forall a, silent read (k a)) -> silent read (m ≫= k).
Proof.
  intros Hm Hk st. unfold mbind, M_bind, bind.
  specialize (Hm st). destruct (m st) as [[e|a] st']; simpl in *; [exact Hm|].
  now rewrite Hk.
Qed.

Lemma silent_log (e : event) (st : State) :
  read [e] = [] -> read (trace (log e st)) = read (trace st).
Proof. intros H. simpl. now rewrite read_app, H, app_nil_r. Qed.

Lemma silent_emit (e : event) : read [e] = [] -> silent read (emit e).
Proof. intros H st. now apply silent_log. Qed.

Lemma silent_for_each {A : Type} (l : list A) (body : A -> M unit) :
  (forall a, silent read (body a)) -> silent read (for_each l body).
Proof.
  intros H. induction l as [|a l IH]; [apply silent_ret|].
  simpl. apply silent_bind; [apply H|intros _; exact IH].
Qed.

Lemma silent_request (e : event) : read [e] = [] -> silent read (request e).
Proof.
  intros H st. unfold request.
  destruct (faults st (trace st ++ [e])); now apply silent_log.
Qed.

Lemma silent_finally {A : Type} (m : M A) (cleanup : M unit) :
  silent read m -> silent read cleanup -> silent read (finally m cleanup).
Proof.
  intros Hm Hc st. unfold finally. specialize (Hm st).
  destruct (m st) as [r st']. specialize (Hc st').
  destruct (cleanup st') as [[e|[]] st'']; simpl in *; congruence.
Qed.

Lemma silent_open_wb (path : pystr) :
  read [EvOpenWb path] = [] -> silent read (open_wb path).
Proof.
  intros H. unfold open_wb. apply silent_bind; [now apply silent_request|].
  intros _. destruct (name_max <? _); [apply silent_raise|].
  intros st. reflexivity.
Qed.

Lemma silent_write (w : World) (path : pystr) (content : pybytes) :
  read [EvWrite path content] = [] -> silent read (write w path content).
Proof.
  intros H. unfold write. apply silent_bind; [now apply silent_request|].
  intros _ st. destruct (_ <=? _); [reflexivity|].
  destruct (_ <? _); reflexivity.
Qed.

Lemma silent_close (path : pystr) :
  read [EvClose path] = [] -> silent read (close path).
Proof.
  intros H. unfold close. apply silent_bind; [now apply silent_request|].
  intros _ st. reflexivity.
Qed.

Lemma silent_files_create (w : World) (name : pystr) (folders : list pystr)
    (mime_type : option pystr) :
  read [EvDriveCreate name folders mime_type] = [] ->
  silent read (files_create w name folders mime_type).
Proof.
  intros H st. unfold files_create.
  destruct (tmpfs st !! name) as [bytes|]; [|reflexivity].
  revert st. apply silent_bind; [now apply silent_request|].
  intros _ st. reflexivity.
Qed.

End Silent.

(** The second loop deletes nothing. *)
Lemma upload_page_deletes_nothing (w : World) (c : Confluence) (dir : pystr)
    (creds : Credentials) (page : Page) :
  silent deleted_ids (upload_page w c dir creds page).
Proof.
  pose proof deleted_ids_app as Happ. unfold upload_page.
  apply silent_bind.
  { unfold get_page_as_pdf. apply silent_bind; [now apply silent_emit|].
    intros _. apply silent_lift. }
  intros content. apply silent_bind.
  { destruct (slugify _ _); [apply silent_ret|apply silent_raise]. }
  intros title. unfold with_open_wb. apply silent_bind.
  { now apply silent_open_wb. }
  intros pdf_file. apply silent_finally; [|now apply silent_close].
  apply silent_bind; [now apply silent_write|].
  intros _. apply silent_bind; [now apply silent_emit|].
  intros _. apply silent_bind; [|intros; apply silent_ret].
  unfold upload_google_drive. apply silent_bind.
  - now apply silent_files_create.
  - intros file. apply silent_bind; [now apply silent_emit|].
    intros; apply silent_ret.
Qed.

(** *** The stages of [main] *)

Lemma read_google_drive_eq (creds : Credentials) (st : State) :
  read_google_drive creds st
  = match faults st (trace st ++ [EvDriveList 50]) with
    | Some x => (inl x, log (EvDriveList 50) st)
    | None =>
        match listing_of (drive st) with
        | [] => (inr None,
                 log (EvPrint (py "No files found.")) (log (EvDriveList 50) st))
        | items => (inr (Some items), log (EvDriveList 50) st)
        end
    end.
Proof.
  unfold read_google_drive, files_list, request, listing_of, mbind, M_bind, bind.
  change (N.to_nat 50) with 50%nat.
  destruct (faults st (trace st ++ [EvDriveList 50])); [reflexivity|].
  cbn [log drive].
  destruct (List.map item (firstn 50 (drive st))); reflexivity.
Qed.

Lemma get_all_pages_by_label_eq (w : World) (c : Confluence) (label : pystr)
    (start limit : N) (st : State) :
  get_all_pages_by_label w c label start limit st
  = (wiki_pages_by_label w c label start limit,
     log (EvWikiPagesByLabel c label start limit) st).
Proof.
  unfold get_all_pages_by_label, mbind, M_bind, bind, emit. simpl.
  destruct (wiki_pages_by_label w c label start limit); reflexivity.
Qed.

(** Either the run stops on its configuration, in the state it started from;
    or the wiki query fails; or the listing fails; or the listing is empty
    and the filter fails; or the two loops run from the state after the
    listing. *)
Lemma main_cases (w : World) (st : State) :
  (~ configured w /\ exists e, main w st = (inl e, st))
  \/ (exists c label e,
        wiki_pages_by_label w c label 0 50 = inl e
        /\ main w st = (inl e, log (EvWikiPagesByLabel c label 0 50) st))
  \/ (exists c label e,
        faults st ((trace st ++ [EvWikiPagesByLabel c label 0 50])
                   ++ [EvDriveList 50]) = Some e
        /\ main w st
           = (inl e,
              log (EvDriveList 50) (log (EvWikiPagesByLabel c label 0 50) st)))
  \/ (exists c label pages,
        wiki_pages_by_label w c label 0 50 = inr pages
        /\ listing_of (drive st) = []
        /\ main w st
           = (inl (TypeError "'NoneType' object is not iterable"),
              log (EvPrint (py "No files found."))
                (log (EvDriveList 50)
                   (log (EvWikiPagesByLabel c label 0 50) st))))
  \/ (exists c label pages creds,
        wiki_pages_by_label w c label 0 50 = inr pages
        /\ listing_of (drive st) <> []
        /\ main w st
           = (for_each (List.filter not_folder (listing_of (drive st)))
                (fun drive_file =>
                   delete_from_google_drive (f_id drive_file) creds) ;;
              for_each pages (upload_page w c (target_of w) creds))
               (log (EvDriveList 50)
                  (log (EvWikiPagesByLabel c label 0 50) st))).
Proof.
  unfold main.
  destruct (truthy (environ w !! "CONFLUENCE_DOMAIN"%string)) eqn:E1.
  2: { left. split; [intros (H & _); congruence|].
       eexists. now erewrite bind_raise by (now apply assert_false). }
  erewrite bind_ret by (now apply assert_true).
  destruct (truthy (environ w !! "JIRA_TOKEN"%string)) eqn:E2.
  2: { left. split; [intros (_ & H & _); congruence|].
       eexists. now erewrite bind_raise by (now apply assert_false). }
  erewrite bind_ret by (now apply assert_true).
  destruct (truthy (environ w !! "JIRA_USER"%string)) eqn:E3.
  2: { left. split; [intros (_ & _ & H & _); congruence|].
       eexists. now erewrite bind_raise by (now apply assert_false). }
  erewrite bind_ret by (now apply assert_true).
  destruct (truthy (Some (default (py "jam") (environ w !! "CONFLUENCE_LABEL"%string))))
    eqn:E4.
  2: { left. split; [intros (_ & _ & _ & H & _); congruence|].
       eexists. now erewrite bind_raise by (now apply assert_false). }
  erewrite bind_ret by (now apply assert_true).
  unfold from_service_account_file.
  destruct (credentials_json w) as [key|] eqn:Ec.
  2: { left. split; [intros (_ & _ & _ & _ & [? H]); congruence|].
       eexists. now erewrite bind_raise by reflexivity. }
  erewrite bind_ret by reflexivity.
  match goal with
  | |- context [get_all_pages_by_label w ?c ?l 0 50] =>
      set (conf := c); set (label := l)
  end.
  destruct (wiki_pages_by_label w conf label 0 50) as [e|pages] eqn:Ew.
  { right; left. exists conf, label, e. split; [exact Ew|].
    erewrite bind_raise; [reflexivity|].
    now rewrite get_all_pages_by_label_eq, Ew. }
  erewrite bind_ret by (now rewrite get_all_pages_by_label_eq, Ew).
  right; right.
  destruct (faults st ((trace st ++ [EvWikiPagesByLabel conf label 0 50])
                       ++ [EvDriveList 50])) as [e|] eqn:Ef.
  { left. exists conf, label, e. split; [exact Ef|].
    erewrite bind_raise; [reflexivity|].
    rewrite read_google_drive_eq. cbn [log drive faults trace]. now rewrite Ef. }
  right.
  destruct (listing_of (drive st)) as [|x items] eqn:El.
  - left. exists conf, label, pages. split; [exact Ew|]. split; [reflexivity|].
    erewrite bind_ret
      by (rewrite read_google_drive_eq; cbn [log drive faults trace];
          now rewrite Ef, El).
    now erewrite bind_raise by reflexivity.
  - right. eexists conf, label, pages, _.
    split; [exact Ew|]. split; [discriminate|].
    erewrite bind_ret
      by (rewrite read_google_drive_eq; cbn [log drive faults trace];
          now rewrite Ef, El).
    erewrite bind_ret by reflexivity. reflexivity.
Qed.

(** A run of a configured world, stage by stage. *)
Lemma main_run (w : World) (key : pybytes) (st : State) :
  configured w -> credentials_json w = Some key ->
  main w st
  = match wiki_pages_by_label w (confluence_of w) (label_of w) 0 50 with
    | inl e =>
        (inl e, log (EvWikiPagesByLabel (confluence_of w) (label_of w) 0 50) st)
    | inr pages =>
        match faults st
                ((trace st ++ [EvWikiPagesByLabel (confluence_of w) (label_of w) 0 50])
                 ++ [EvDriveList 50]) with
        | Some e =>
            (inl e,
             log (EvDriveList 50)
               (log (EvWikiPagesByLabel (confluence_of w) (label_of w) 0 50) st))
        | None =>
            match listing_of (drive st) with
            | [] =>
                (inl (TypeError "'NoneType' object is not iterable"),
                 log (EvPrint (py "No files found."))
                   (log (EvDriveList 50)
                      (log (EvWikiPagesByLabel (confluence_of w) (label_of w) 0 50)
                         st)))
            | _ :: _ =>
                (for_each (List.filter not_folder (listing_of (drive st)))
                   (fun drive_file =>
                      delete_from_google_drive (f_id drive_file)
                        (credentials_of key)) ;;
                 for_each pages
                   (upload_page w (confluence_of w) (target_of w)
                      (credentials_of key)))
                  (log (EvDriveList 50)
                     (log (EvWikiPagesByLabel (confluence_of w) (label_of w) 0 50)
                        st))
            end
        end
    end.
Proof.
  intros (E1 & E2 & E3 & E4 & _) Ec. unfold main.
  do 4 (erewrite bind_ret by (now apply assert_true)).
  unfold from_service_account_file. rewrite Ec.
  erewrite bind_ret by reflexivity.
  match goal with
  | |- context [get_all_pages_by_label w ?c ?l 0 50] =>
      change c with (confluence_of w); change l with (label_of w)
  end.
  destruct (wiki_pages_by_label w (confluence_of w) (label_of w) 0 50)
    as [e|pages] eqn:Ew.
  { erewrite bind_raise; [reflexivity|].
    now rewrite get_all_pages_by_label_eq, Ew. }
  erewrite bind_ret by (now rewrite get_all_pages_by_label_eq, Ew).
  destruct (faults st _) as [e|] eqn:Ef.
  { erewrite bind_raise; [reflexivity|].
    rewrite read_google_drive_eq. cbn [log drive faults trace]. now rewrite Ef. }
  destruct (listing_of (drive st)) as [|x items] eqn:El.
  - erewrite bind_ret
      by (rewrite read_google_drive_eq; cbn [log drive faults trace];
          now rewrite Ef, El).
    now erewrite bind_raise by reflexivity.
  - erewrite bind_ret
      by (rewrite read_google_drive_eq; cbn [log drive faults trace];
          now rewrite Ef, El).
    erewrite bind_ret by reflexivity. reflexivity.
Qed.

(** *** The purge *)

Lemma delete_from_google_drive_eq (i : pystr) (creds : Credentials) (st : State) :
  delete_from_google_drive i creds st
  = match faults st (trace st ++ [EvDriveDelete i]) with
    | Some x => (inl x, log (EvDriveDelete i) st)
    | None =>
        if existsb (has_id i) (drive st) then
          (inr tt,
           {| drive := List.filter (fun it => negb (has_id i it)) (drive st);
              tmpfs := tmpfs st; buffers := buffers st; faults := faults st;
              trace := (trace st ++ [EvDriveDelete i])
                         ++ [EvPrint (py " deleted file ID " ++ i)] |})
        else (inl (HttpError 404), log (EvDriveDelete i) st)
    end.
Proof.
  unfold delete_from_google_drive, files_delete, request, mbind, M_bind, bind.
  destruct (faults st (trace st ++ [EvDriveDelete i])); [reflexivity|].
  cbn [log drive]. destruct (existsb (has_id i) (drive st)); reflexivity.
Qed.

(** The first loop calls delete on identifiers of its list only. *)
Lemma purge_deleted_ids (files : list DriveFile) (creds : Credentials)
    (st : State) (i : pystr) :
  In i (deleted_ids (trace (for_each files
         (fun drive_file => delete_from_google_drive (f_id drive_file) creds)
         st).2)) ->
  In i (deleted_ids (trace st)) \/ In i (List.map f_id files).
Proof.
  revert st. induction files as [|f files IH]; intros st; simpl; [now left|].
  unfold mbind, M_bind, bind. rewrite delete_from_google_drive_eq.
  destruct (faults st (trace st ++ [EvDriveDelete (f_id f)])).
  { simpl. rewrite deleted_ids_app. intros H.
    apply in_app_or in H as [H|[H|[]]]; auto. }
  destruct (existsb (has_id (f_id f)) (drive st)).
  - intros H. apply IH in H as [H|H]; [|now right; right].
    simpl in H. rewrite !deleted_ids_app in H. simpl in H.
    rewrite app_nil_r in H. apply in_app_or in H as [H|[H|[]]]; auto.
  - simpl. rewrite deleted_ids_app. intros H.
    apply in_app_or in H as [H|[H|[]]]; auto.
Qed.

(** Every identifier [main] passes to delete is the identifier of an entry
    of the listing that is not a folder. *)
Lemma main_deleted_ids (w : World) (store : list DriveItem)
    (files : gmap pystr pybytes) (i : pystr) :
  In i (deleted_ids (trace (main w (initial store files)).2)) ->
  In i (List.map f_id (List.filter not_folder (listing_of store))).
Proof.
  destruct (main_cases w (initial store files))
    as [(_ & e & ->)|[(c & l & e & _ & ->)|[(c & l & e & _ & ->)
         |[(c & l & ps & _ & _ & ->)|(c & l & ps & creds & _ & _ & ->)]]]];
    simpl; try tauto.
  unfold mbind, M_bind, bind.
  match goal with
  | |- context [for_each ?fs ?body ?st] =>
      pose proof (purge_deleted_ids fs creds st i) as Hp;
      destruct (for_each fs body st) as [[e|[]] st2]
  end; simpl in Hp.
  - intros H. destruct (Hp H) as [[]|H']; exact H'.
  - rewrite (silent_for_each deleted_ids ps _
               (upload_page_deletes_nothing w c _ creds) st2).
    intros H. destruct (Hp H) as [[]|H']; exact H'.
Qed.

(** C4: whatever the store holds, an identifier passed to delete comes from
    an entry of the listing whose type is not the folder type. *)
Theorem purge_never_deletes_a_folder (w : World) (store : list DriveItem)
    (files : gmap pystr pybytes) (fileId : pystr) :
  In (EvDriveDelete fileId) (trace (main w (initial store files)).2) ->
  exists x,
    In x (listing_of store) /\ f_id x = fileId
    /\ f_mimeType x <> folder_mimeType.
Proof.
  intros H.
  assert (Hd : In fileId (deleted_ids (trace (main w (initial store files)).2))).
  { unfold deleted_ids. apply in_flat_map. eexists. split; [exact H|now left]. }
  apply main_deleted_ids in Hd. apply in_map_iff in Hd as (x & Hx & Hin).
  apply filter_In in Hin as [Hin Hnf]. exists x. repeat split; trivial.
  unfold not_folder in Hnf. apply negb_true_iff, bool_decide_eq_false in Hnf.
  exact Hnf.
Qed.

Lemma purge_never_deletes_a_folder_witness :
  exists x,
    In x (listing_of acme_store) /\ f_id x = py "f1"
    /\ f_mimeType x <> folder_mimeType.
Proof.
  apply (purge_never_deletes_a_folder (acme_world acme_environ []) acme_store ∅).
  vm_compute. right; right; left; reflexivity.
Defined.

(** C10: on an empty listing [read_google_drive] returns [None] and not an
    empty list; a run that gets as far as the listing (every setting given,
    the wiki answers) then ends in the [TypeError] of the filter over
    [None], after the wiki call and the listing and before any delete,
    render or upload. *)
Theorem empty_listing_aborts (w : World) (store : list DriveItem)
    (files : gmap pystr pybytes) (creds : Credentials) (pages : list Page) :
  configured w ->
  wiki_pages_by_label w (confluence_of w) (label_of w) 0 50 = inr pages ->
  listing_of store = [] ->
  (read_google_drive creds (initial store files)).1 = inr None
  /\ (main w (initial store files)).1
     = inl (TypeError "'NoneType' object is not iterable")
  /\ trace (main w (initial store files)).2
     = [EvWikiPagesByLabel (confluence_of w) (label_of w) 0 50;
        EvDriveList 50; EvPrint (py "No files found.")]
  /\ deleted_ids (trace (main w (initial store files)).2) = []
  /\ rendered (trace (main w (initial store files)).2) = []
  /\ uploaded (trace (main w (initial store files)).2) = [].
Proof.
  intros Hcfg Hw El. split.
  { rewrite read_google_drive_eq. cbn [initial faults drive]. now rewrite El. }
  destruct (proj2 (proj2 (proj2 (proj2 Hcfg)))) as [key Hk].
  rewrite (main_run w key _ Hcfg Hk), Hw. cbn [initial faults drive].
  rewrite El. now repeat split.
Qed.

Lemma empty_listing_aborts_witness :
  (read_google_drive {| account := []; scopes := [] |} (initial [] ∅)).1 = inr None
  /\ (main (acme_world acme_environ [weekly_sync (py "1")]) (initial [] ∅)).1
     = inl (TypeError "'NoneType' object is not iterable")
  /\ trace (main (acme_world acme_environ [weekly_sync (py "1")]) (initial [] ∅)).2
     = [EvWikiPagesByLabel
          (confluence_of (acme_world acme_environ [weekly_sync (py "1")]))
          (label_of (acme_world acme_environ [weekly_sync (py "1")])) 0 50;
        EvDriveList 50; EvPrint (py "No files found.")]
  /\ deleted_ids
       (trace (main (acme_world acme_environ [weekly_sync (py "1")])
                 (initial [] ∅)).2) = []
  /\ rendered
       (trace (main (acme_world acme_environ [weekly_sync (py "1")])
                 (initial [] ∅)).2) = []
  /\ uploaded
       (trace (main (acme_world acme_environ [weekly_sync (py "1")])
                 (initial [] ∅)).2) = [].
Proof.
  apply (empty_listing_aborts (acme_world acme_environ [weekly_sync (py "1")])
           [] ∅ {| account := []; scopes := [] |} [weekly_sync (py "1")]).
  - repeat split; try reflexivity. now exists (py "{}").
  - reflexivity.
  - reflexivity.
Defined.

Lemma missing_configuration_halts_witness :
  exists msg,
    main (acme_world (delete "JIRA_TOKEN"%string acme_environ) []) (initial acme_store ∅)
    = (inl (AssertionError msg), initial acme_store ∅)
    /\ network_calls
         (trace (main (acme_world (delete "JIRA_TOKEN"%string acme_environ) [])
                   (initial acme_store ∅)).2)
       = network_calls (trace (initial acme_store ∅)).
Proof.
  apply (missing_configuration_halts
           (acme_world (delete "JIRA_TOKEN"%string acme_environ) [])
           (initial acme_store ∅)).
  right; left. vm_compute. reflexivity.
Defined.

(** *** A purge that succeeds *)

Lemma purged_nil (store : list DriveItem) : purged [] store = store.
Proof.
  unfold purged. induction store as [|it store IH]; simpl; [reflexivity|].
  f_equal. exact IH.
Qed.

Lemma purged_cons (i : pystr) (ids : list pystr) (store : list DriveItem) :
  purged ids (List.filter (fun it => negb (has_id i it)) store)
  = purged (i :: ids) store.
Proof.
  unfold purged, has_id. induction store as [|it store IH]; simpl; [reflexivity|].
  destruct (decide (f_id (item it) = i)) as [Heq|Hne].
  - rewrite (bool_decide_eq_true_2 _ Heq). simpl.
    rewrite (bool_decide_eq_true_2 (f_id (item it) ∈ i :: ids))
      by (rewrite Heq; apply list_elem_of_here).
    simpl. exact IH.
  - rewrite (bool_decide_eq_false_2 _ Hne). simpl.
    destruct (decide (f_id (item it) ∈ ids)) as [Hin|Hnin].
    + rewrite (bool_decide_eq_true_2 _ Hin).
      rewrite (bool_decide_eq_true_2 (f_id (item it) ∈ i :: ids))
        by (now apply list_elem_of_further).
      simpl. exact IH.
    + rewrite (bool_decide_eq_false_2 _ Hnin).
      rewrite (bool_decide_eq_false_2 (f_id (item it) ∈ i :: ids)).
      * simpl. now rewrite IH.
      * intros H. apply elem_of_cons in H as [H|H]; [now apply Hne|now apply Hnin].
Qed.


(** When the provider answers, the identifiers of the list are distinct and
    every file of the list is in the store, the first loop deletes them
    all. *)
Lemma purge_succeeds (files : list DriveFile) (creds : Credentials) (st : State) :
  no_faults st ->
  NoDup (List.map f_id files) ->
  (forall f, In f files -> existsb (has_id (f_id f)) (drive st) = true) ->
  for_each files
    (fun drive_file => delete_from_google_drive (f_id drive_file) creds) st
  = (inr tt,
     {| drive := purged (List.map f_id files) (drive st);
        tmpfs := tmpfs st; buffers := buffers st; faults := faults st;
        trace := trace st
                   ++ flat_map (fun f => [EvDriveDelete (f_id f);
                                          EvPrint (py " deleted file ID " ++ f_id f)])
                        files |}).
Proof.
  revert st. induction files as [|f files IH]; intros st Hnf Hnd Hex.
  - simpl. rewrite purged_nil, app_nil_r. now destruct st.
  - cbn [for_each]. erewrite bind_ret.
    2: { rewrite delete_from_google_drive_eq, Hnf, (Hex f) by (now left).
         reflexivity. }
    simpl in Hnd. apply NoDup_cons in Hnd as [Hnin Hnd].
    rewrite list_elem_of_In in Hnin. rewrite IH; trivial.
    + cbn [drive tmpfs buffers faults trace List.map flat_map].
      rewrite purged_cons. now rewrite <- !app_assoc.
    + intros f' Hf'. cbn [drive].
      specialize (Hex f' (or_intror Hf')).
      apply existsb_exists in Hex as (it & Hit & Hid).
      apply existsb_exists. exists it. split; [|exact Hid].
      apply filter_In. split; [exact Hit|].
      unfold has_id in *. apply bool_decide_eq_true in Hid.
      apply negb_true_iff, bool_decide_eq_false. rewrite Hid.
      intros Heq. apply Hnin. rewrite <- Heq. now apply in_map.
Qed.

Lemma listing_ids_distinct (store : list DriveItem) :
  NoDup (List.map (fun it => f_id (item it)) store) ->
  NoDup (List.map f_id (List.filter not_folder (listing_of store))).
Proof.
  intros H. unfold listing_of.
  assert (Hl : NoDup (List.map f_id (List.map item (firstn 50 store)))).
  { rewrite map_map. rewrite <- (firstn_skipn 50 store), map_app in H.
    now apply NoDup_app in H as [H _]. }
  revert Hl. generalize (List.map item (firstn 50 store)). clear.
  intros l. induction l as [|x l IH]; simpl; intros H; [constructor|].
  apply NoDup_cons in H as [Hnin H]. rewrite list_elem_of_In in Hnin.
  destruct (not_folder x); [|now apply IH].
  simpl. apply NoDup_cons. split; [|now apply IH].
  rewrite list_elem_of_In. intros Hin. apply Hnin. apply in_map_iff in Hin as (y & Hy & Hin).
  apply filter_In in Hin as [Hin _]. rewrite <- Hy. now apply in_map.
Qed.

Lemma listed_in_store (store : list DriveItem) (f : DriveFile) :
  In f (List.filter not_folder (listing_of store)) ->
  existsb (has_id (f_id f)) store = true.
Proof.
  intros H. apply filter_In in H as [H _]. unfold listing_of in H.
  apply in_map_iff in H as (it & <- & Hit).
  apply existsb_exists. exists it. split.
  - rewrite <- (firstn_skipn 50 store). apply in_or_app. now left.
  - unfold has_id. now apply bool_decide_eq_true.
Qed.

Lemma purge_events_deleted (files : list DriveFile) :
  deleted_ids (flat_map (fun f => [EvDriveDelete (f_id f);
                                   EvPrint (py " deleted file ID " ++ f_id f)])
                 files)
  = List.map f_id files.
Proof.
  induction files as [|f files IH]; [reflexivity|].
  cbn [flat_map]. rewrite deleted_ids_app, IH. reflexivity.
Qed.

Lemma purge_events_uploaded (files : list DriveFile) :
  uploaded (flat_map (fun f => [EvDriveDelete (f_id f);
                                EvPrint (py " deleted file ID " ++ f_id f)])
              files) = [].
Proof.
  induction files as [|f files IH]; [reflexivity|].
  cbn [flat_map]. rewrite uploaded_app, IH. reflexivity.
Qed.

Lemma purge_events_rendered (files : list DriveFile) :
  rendered (flat_map (fun f => [EvDriveDelete (f_id f);
                                EvPrint (py " deleted file ID " ++ f_id f)])
              files) = [].
Proof.
  induction files as [|f files IH]; [reflexivity|].
  cbn [flat_map]. rewrite rendered_app, IH. reflexivity.
Qed.



Lemma acme_configured (pages : list Page) : configured (acme_world acme_environ pages).
Proof. repeat split. now exists (py "{}"). Qed.

Lemma acme_store_distinct :
  NoDup (List.map (fun it => f_id (item it)) acme_store).
Proof.
  unfold acme_store. cbn [List.map item f_id target_folder old_upload other_notes].
  repeat (apply NoDup_cons; split;
          [rewrite list_elem_of_In; vm_compute; intros H;
           repeat (destruct H as [H|H]; [discriminate H|]); exact H|]).
  constructor.
Qed.


(** *** The upload of one page *)

Lemma basename_no_slash (s : pystr) :
  forallb (fun c => negb (c =? slash)) s = true -> basename s = s.
Proof. destruct s as [|c s]; [reflexivity|]. intros H. cbn [basename]. now rewrite H. Qed.

Lemma slug_char_not_slash (c : N) :
  is_slug_char c = true -> negb (c =? slash) = true.
Proof.
  intros H. apply negb_true_iff. destruct (c =? slash) eqn:E; [|reflexivity].
  apply N.eqb_eq in E. subst c. discriminate H.
Qed.

Lemma basename_tmp_path (title : pystr) :
  forallb is_slug_char title = true ->
  basename (tmp_path title) = title ++ py ".pdf".
Proof.
  intros Hs.
  assert (Hn : forallb (fun c => negb (c =? slash)) (title ++ py ".pdf") = true).
  { rewrite forallb_app. apply andb_true_iff. split; [|reflexivity].
    apply forallb_forall. intros c Hc. apply slug_char_not_slash.
    revert c Hc. now apply forallb_forall. }
  unfold tmp_path. change (py "/tmp/") with [47; 116; 109; 112; 47].
  cbn [app basename forallb]. rewrite Hn.
  change (negb (47 =? slash)) with false.
  change (negb (116 =? slash)) with true.
  change (negb (109 =? slash)) with true.
  change (negb (112 =? slash)) with true.
  cbn [andb]. now apply basename_no_slash.
Qed.

Lemma slug_name_fits (title : pystr) :
  forallb is_slug_char title = true -> N.of_nat (length title) <= 251 ->
  (name_max <? N.of_nat (length (basename (tmp_path title)))) = false.
Proof.
  intros Hs Hl. rewrite (basename_tmp_path title Hs), length_app.
  change (length (py ".pdf")) with 4%nat. apply N.ltb_ge. unfold name_max. lia.
Qed.

(** When the wiki renders the page, the name of the temporary file is not
    too long and no request is refused, the page is written, uploaded with
    the bytes that are on the disk at that moment, and the file is closed. *)
Lemma upload_page_eq (w : World) (c : Confluence) (dir : pystr)
    (creds : Credentials) (page : Page) (content : pybytes) (title : pystr)
    (st : State) :
  no_faults st ->
  wiki_page_as_pdf w c (page_id page) = inr content ->
  slugify (normalize_nfkd w) (page_title page) = Some title ->
  N.of_nat (length title) <= 251 ->
  upload_page w c dir creds page st
  = (inr tt,
     {| drive := drive st
          ++ [{| item := {| f_id := drive_new_id w (drive st);
                            f_name := tmp_path title;
                            f_mimeType :=
                              default (py "application/octet-stream")
                                (guess_type w (tmp_path title)) |};
                 parents := [dir]; media := sent w content |}];
        tmpfs := <[tmp_path title := content]> (tmpfs st);
        buffers := delete (tmp_path title) (buffers st);
        faults := faults st;
        trace := trace st
          ++ [EvWikiPageAsPdf c (page_id page);
              EvOpenWb (tmp_path title);
              EvWrite (tmp_path title) content;
              EvPrint (py "Downloaded " ++ title);
              EvDriveCreate (tmp_path title) [dir] (guess_type w (tmp_path title));
              EvPrint (py "File ID: " ++ drive_new_id w (drive st));
              EvClose (tmp_path title)] |}).
Proof.
  intros Hnf Hpdf Hslug Hlen.
  destruct (slugify_shape _ _ _ Hslug) as (Hs & _).
  pose proof (slug_name_fits title Hs Hlen) as Hname.
  unfold upload_page, get_page_as_pdf, with_open_wb, upload_google_drive,
    open_wb, write, close, files_create, print, emit, lift, request, finally,
    mbind, M_bind, bind, ret, raise, log.
  rewrite Hpdf, Hslug. cbn [drive tmpfs buffers faults trace].
  rewrite Hnf, Hname. cbn [drive tmpfs buffers faults trace].
  rewrite Hnf. cbn [drive tmpfs buffers faults trace].
  rewrite !lookup_insert_eq. cbn [default length app]. unfold sent.
  change (N.of_nat 0) with 0. rewrite N.sub_0_r.
  destruct (N.of_nat (length content) <=? buffer_size w) eqn:E1.
  - assert (E2 : (buffer_size w <? N.of_nat (length content)) = false)
      by (apply N.ltb_ge; now apply N.leb_le).
    rewrite E2. cbn [drive tmpfs buffers faults trace].
    rewrite !lookup_insert_eq, Hnf. cbn [drive tmpfs buffers faults trace].
    rewrite Hnf. cbn [drive tmpfs buffers faults trace].
    rewrite !lookup_insert_eq. cbn [default app].
    rewrite insert_insert_eq, !delete_insert_eq, <- !app_assoc. reflexivity.
  - destruct (buffer_size w <? N.of_nat (length content)) eqn:E2.
    2: { apply N.leb_gt in E1. apply N.ltb_ge in E2. lia. }
    cbn [drive tmpfs buffers faults trace].
    rewrite !lookup_insert_eq, Hnf. cbn [drive tmpfs buffers faults trace].
    rewrite Hnf. cbn [drive tmpfs buffers faults trace].
    rewrite !lookup_insert_eq. cbn [default app].
    rewrite !insert_insert_eq, !delete_insert_eq, app_nil_r, <- !app_assoc.
    reflexivity.
Qed.

(** When the provider answers and the listing is not empty, the first loop
    leaves the store purged and the second loop starts from there. *)
Lemma main_loops (w : World) (key : pybytes) (st : State) (pages : list Page) :
  configured w -> credentials_json w = Some key ->
  wiki_pages_by_label w (confluence_of w) (label_of w) 0 50 = inr pages ->
  no_faults st ->
  listing_of (drive st) <> [] ->
  NoDup (List.map (fun it => f_id (item it)) (drive st)) ->
  main w st
  = for_each pages
      (upload_page w (confluence_of w) (target_of w) (credentials_of key))
      {| drive := purged (List.map f_id
                            (List.filter not_folder (listing_of (drive st))))
                    (drive st);
         tmpfs := tmpfs st; buffers := buffers st; faults := faults st;
         trace := (trace st
                   ++ [EvWikiPagesByLabel (confluence_of w) (label_of w) 0 50;
                       EvDriveList 50])
                  ++ flat_map (fun f => [EvDriveDelete (f_id f);
                                         EvPrint (py " deleted file ID " ++ f_id f)])
                       (List.filter not_folder (listing_of (drive st))) |}.
Proof.
  intros Hcfg Hk Hw Hnf Hne Hnd. rewrite (main_run w key _ Hcfg Hk), Hw, Hnf.
  assert (Hp := purge_succeeds (List.filter not_folder (listing_of (drive st)))
                  (credentials_of key)
                  (log (EvDriveList 50)
                     (log (EvWikiPagesByLabel (confluence_of w) (label_of w) 0 50)
                        st))
                  Hnf (listing_ids_distinct (drive st) Hnd)
                  (fun f Hf => listed_in_store (drive st) f Hf)).
  destruct (listing_of (drive st)) as [|x items]; [now destruct Hne|].
  erewrite bind_ret by exact Hp. cbn [log drive tmpfs buffers faults trace].
  now rewrite <- (app_assoc (trace st)).
Qed.





(** C1, where the code leaves the claim: the listing is not restricted to
    the target folder.  In the store of the example the file "notes.txt"
    lies in the folder "other", not in the target folder; the run lists it,
    calls delete on it, and it is gone from the store afterwards. *)
Theorem purge_reaches_outside_target_folder :
  target_of (acme_world acme_environ []) = py "target"
  /\ In other_notes acme_store
  /\ in_folder (py "target") other_notes = false
  /\ In (item other_notes) (listing_of acme_store)
  /\ In (EvDriveDelete (f_id (item other_notes)))
       (trace (main (acme_world acme_environ []) (initial acme_store ∅)).2)
  /\ ~ In other_notes
       (drive (main (acme_world acme_environ []) (initial acme_store ∅)).2).
Proof.
  split; [reflexivity|]. split; [right; right; left; reflexivity|].
  split; [reflexivity|]. split; [right; right; left; reflexivity|].
  split; [vm_compute; do 4 right; left; reflexivity|].
  vm_compute. intros [H|[]]. discriminate H.
Qed.


(** * Further properties of the slug *)

Lemma lstrip_all (chars : N -> bool) (s : pystr) :
  forallb chars s = true -> lstrip chars s = [].
Proof.
  induction s as [|c s IH]; simpl; [reflexivity|].
  intros H. apply andb_true_iff in H as [Hc H]. now rewrite Hc, IH.
Qed.

Lemma strip_all (chars : N -> bool) (s : pystr) :
  forallb chars s = true -> strip chars s = [].
Proof. intros H. unfold strip. now rewrite lstrip_all. Qed.

Lemma lstrip_keeps (chars : N -> bool) (s : pystr) (c : N) :
  In c s -> chars c = false -> In c (lstrip chars s).
Proof.
  intros Hin Hc. induction s as [|d s IH]; [destruct Hin|]. simpl.
  destruct (chars d) eqn:Ed; [|exact Hin].
  destruct Hin as [->|Hin]; [congruence|now apply IH].
Qed.

Lemma strip_keeps (chars : N -> bool) (s : pystr) (c : N) :
  In c s -> chars c = false -> In c (strip chars s).
Proof.
  intros Hin Hc. unfold strip, rstrip.
  apply list_elem_of_In, elem_of_reverse, list_elem_of_In, lstrip_keeps; trivial.
  apply list_elem_of_In, elem_of_reverse, list_elem_of_In, lstrip_keeps; trivial.
Qed.

Lemma re_sub_class_plus_from_keeps (cls : N -> bool) (repl : pystr)
    (in_run : bool) (s : pystr) (c : N) :
  In c s -> cls c = false -> In c (re_sub_class_plus_from cls repl in_run s).
Proof.
  intros Hin Hc. revert in_run. induction s as [|d s IH]; intros in_run;
    [destruct Hin|].
  simpl. destruct (cls d) eqn:Ed.
  - destruct Hin as [->|Hin]; [congruence|]. apply in_or_app. right. now apply IH.
  - destruct Hin as [->|Hin]; [now left|right; now apply IH].
Qed.

Lemma alnum_survives (c : N) :
  is_ascii c = true -> is_alnum c = true ->
  not_word_space_hyphen (lower_char c) = false
  /\ hyphen_or_space (lower_char c) = false
  /\ hyphen_or_underscore (lower_char c) = false.
Proof. intros Ha Hn. unfold is_alnum in Hn. repeat split; char_cases. Qed.

Lemma not_alnum_kept (c : N) :
  is_ascii c = true -> is_alnum c = false ->
  not_word_space_hyphen (lower_char c) = false ->
  hyphen_or_space (lower_char c) = true \/ lower_char c = underscore.
Proof. intros Ha Hn Hk. unfold is_alnum in Hn. char_cases. Qed.

Lemma re_sub_class_plus_from_no_word (in_run : bool) (s : pystr) :
  forallb (fun c => hyphen_or_space c || (c =? underscore)) s = true ->
  forallb hyphen_or_underscore
    (re_sub_class_plus_from hyphen_or_space [hyphen] in_run s) = true.
Proof.
  revert in_run. induction s as [|c s IH]; intros in_run H; [reflexivity|].
  simpl in H. apply andb_true_iff in H as [Hc H]. simpl.
  destruct (hyphen_or_space c) eqn:E.
  - destruct in_run; simpl; now rewrite IH.
  - simpl in Hc. simpl. unfold hyphen_or_underscore at 1. rewrite Hc, orb_true_r.
    now rewrite IH.
Qed.

Lemma first_sub_no_alnum (v : pystr) :
  forallb (fun c => negb (is_ascii c && is_alnum c)) v = true ->
  forallb (fun c => hyphen_or_space c || (c =? underscore))
    (re_sub_class not_word_space_hyphen [] (lower (encode_ascii_ignore v))) = true.
Proof.
  unfold re_sub_class, lower, encode_ascii_ignore.
  induction v as [|c v IH]; [reflexivity|]. intros H.
  cbn [forallb] in H. apply andb_true_iff in H as [Hc H]. cbn [List.filter].
  destruct (is_ascii c) eqn:Ea; [|now apply IH].
  cbn [List.map flat_map].
  destruct (not_word_space_hyphen (lower_char c)) eqn:Ek; [now apply IH|].
  cbn [app forallb]. rewrite (IH H), andb_true_r.
  simpl in Hc. apply negb_true_iff in Hc.
  destruct (not_alnum_kept c Ea Hc Ek) as [-> | ->]; [reflexivity|].
  apply orb_true_r.
Qed.

Lemma first_sub_length (v : pystr) :
  (length (re_sub_class not_word_space_hyphen [] (lower (encode_ascii_ignore v)))
   <= length v)%nat.
Proof.
  unfold re_sub_class, lower, encode_ascii_ignore.
  induction v as [|c v IH]; simpl; [lia|].
  destruct (is_ascii c); simpl; [|lia].
  destruct (not_word_space_hyphen (lower_char c)); simpl; lia.
Qed.

Lemma re_sub_class_plus_from_length (b : bool) (s : pystr) :
  (length (re_sub_class_plus_from hyphen_or_space [hyphen] b s) <= length s)%nat.
Proof.
  revert b. induction s as [|c s IH]; intros b; simpl; [lia|].
  destruct (hyphen_or_space c).
  - rewrite length_app. specialize (IH true). destruct b; simpl; lia.
  - specialize (IH false). simpl. lia.
Qed.

Section SlugifyMore.

Variable nfkd : pystr -> pystr.

(** X1: the slug of a string is empty exactly when the normalised string
    holds no ASCII letter and no ASCII digit. *)
Theorem slugify_empty_iff (x : pystr) :
  slugify nfkd x = Some []
  <-> forallb (fun c => negb (is_ascii c && is_alnum c)) (nfkd x) = true.
Proof.
  rewrite slugify_eq. split.
  - intros H. injection H as H. apply forallb_forall. intros c Hc.
    destruct (is_ascii c && is_alnum c) eqn:E; [|reflexivity]. exfalso.
    apply andb_true_iff in E as [Ea En].
    destruct (alnum_survives c Ea En) as (Hk & Hs & Hu).
    assert (Hin : In (lower_char c)
                    (re_sub_class not_word_space_hyphen []
                       (lower (encode_ascii_ignore (nfkd x))))).
    { unfold re_sub_class. apply in_flat_map. exists (lower_char c).
      split; [|rewrite Hk; now left].
      apply in_map, filter_In. now split. }
    apply (re_sub_class_plus_from_keeps hyphen_or_space [hyphen] false) in Hin;
      [|exact Hs].
    apply (strip_keeps hyphen_or_underscore) in Hin; [|exact Hu].
    unfold re_sub_class_plus in H. rewrite H in Hin. destruct Hin.
  - intros H. f_equal. apply strip_all.
    apply re_sub_class_plus_from_no_word. now apply first_sub_no_alnum.
Qed.

(** X2: a slug holds no slash, no full stop and no NUL, so the temporary
    path built from it has the two slashes of [/tmp/] and no other: the file
    lies in [/tmp] itself, whatever the title was. *)
Theorem slug_path_stays_in_tmp (x y : pystr) :
  slugify nfkd x = Some y ->
  ~ In slash y /\ ~ In full_stop y /\ ~ In 0 y
  /\ count_occ N.eq_dec (tmp_path y) slash = 2%nat.
Proof.
  intros H. destruct (slugify_shape nfkd x y H) as (Hs & _).
  rewrite forallb_forall in Hs.
  assert (Hno : forall c, is_slug_char c = false -> ~ In c y).
  { intros c Hc Hin. apply Hs in Hin. congruence. }
  repeat split; try (apply Hno; reflexivity).
  unfold tmp_path. rewrite !count_occ_app.
  rewrite (proj1 (count_occ_not_In N.eq_dec y slash)) by (apply Hno; reflexivity).
  reflexivity.
Qed.

(** X3: the slug is never longer than the normalised string. *)
Theorem slugify_length (x y : pystr) :
  slugify nfkd x = Some y -> (length y <= length (nfkd x))%nat.
Proof.
  rewrite slugify_eq. intros H. injection H as <-.
  pose proof (first_sub_length (nfkd x)) as Ha.
  pose proof (re_sub_class_plus_from_length false
                (re_sub_class not_word_space_hyphen []
                   (lower (encode_ascii_ignore (nfkd x))))) as Hb.
  destruct (strip_infix hyphen_or_underscore
              (re_sub_class_plus hyphen_or_space [hyphen]
                 (re_sub_class not_word_space_hyphen []
                    (lower (encode_ascii_ignore (nfkd x))))))
    as (pre & suf & Hi).
  apply (f_equal (@length N)) in Hi. rewrite !length_app in Hi.
  unfold re_sub_class_plus in *. lia.
Qed.

Hypothesis nfkd_ascii :
  forall s, forallb is_ascii s = true -> nfkd s = s.

(** X4: on an ASCII string the slug does not depend on the case of the
    letters: the string and its lower-case form have the same slug. *)
Theorem slugify_case_insensitive (x : pystr) :
  forallb is_ascii x = true -> slugify nfkd (lower x) = slugify nfkd x.
Proof.
  intros Hx.
  assert (Hl : forallb is_ascii (lower x) = true).
  { unfold lower. clear nfkd_ascii. induction x as [|c v IH]; [reflexivity|].
    simpl in *. apply andb_true_iff in Hx as [Hc Hx]. rewrite (IH Hx), andb_true_r.
    char_cases. }
  assert (Hll : lower (lower x) = lower x).
  { unfold lower. rewrite map_map. apply map_ext. intros c. char_cases. }
  rewrite !slugify_eq, (nfkd_ascii _ Hx), (nfkd_ascii _ Hl).
  rewrite (encode_ascii_id _ Hx), (encode_ascii_id _ Hl). now rewrite Hll.
Qed.

End SlugifyMore.

Lemma slug_path_stays_in_tmp_witness :
  ~ In slash (py "weekly-sync") /\ ~ In full_stop (py "weekly-sync")
  /\ ~ In 0 (py "weekly-sync")
  /\ count_occ N.eq_dec (tmp_path (py "weekly-sync")) slash = 2%nat.
Proof.
  apply (slug_path_stays_in_tmp nfkd_latin1 (py "../Weekly Sync")). reflexivity.
Defined.

Lemma slugify_length_witness :
  (length (py "q3-planning-notes") <= length (nfkd_latin1 q3_title))%nat.
Proof. apply slugify_length. reflexivity. Defined.

Lemma slugify_case_insensitive_witness :
  slugify nfkd_latin1 (lower (py "Weekly Sync"))
  = slugify nfkd_latin1 (py "Weekly Sync").
Proof.
  apply (slugify_case_insensitive nfkd_latin1 nfkd_latin1_ascii). reflexivity.
Defined.

(** ** What stands around a title *)

Lemma first_sub_app (u v : pystr) :
  re_sub_class not_word_space_hyphen [] (lower (encode_ascii_ignore (u ++ v)))
  = re_sub_class not_word_space_hyphen [] (lower (encode_ascii_ignore u))
    ++ re_sub_class not_word_space_hyphen [] (lower (encode_ascii_ignore v)).
Proof.
  unfold re_sub_class, lower, encode_ascii_ignore.
  now rewrite List.filter_app, List.map_app, flat_map_app.
Qed.

Lemma lstrip_app_all (chars : N -> bool) (t v : pystr) :
  forallb chars t = true -> lstrip chars (t ++ v) = lstrip chars v.
Proof.
  induction t as [|c t IH]; [reflexivity|]. cbn [forallb app lstrip].
  intros H. apply andb_true_iff in H as [Hc H]. rewrite Hc. now apply IH.
Qed.

Lemma lstrip_app_trail (chars : N -> bool) (u t : pystr) :
  forallb chars t = true ->
  exists t', lstrip chars (u ++ t) = lstrip chars u ++ t'
             /\ forallb chars t' = true.
Proof.
  intros Ht. induction u as [|c u IH].
  - exists []. split; [|reflexivity]. cbn [app lstrip]. now apply lstrip_all.
  - cbn [app lstrip]. destruct (chars c); [exact IH|].
    exists t. now split.
Qed.

Lemma rstrip_app_all (chars : N -> bool) (u t : pystr) :
  forallb chars t = true -> rstrip chars (u ++ t) = rstrip chars u.
Proof.
  intros Ht. unfold rstrip. rewrite reverse_app. f_equal.
  apply lstrip_app_all. apply forallb_forall. intros c Hc.
  apply list_elem_of_In in Hc. rewrite elem_of_reverse in Hc.
  apply list_elem_of_In in Hc. revert c Hc. now apply forallb_forall.
Qed.

Lemma strip_app_all (chars : N -> bool) (u t : pystr) :
  forallb chars t = true -> strip chars (u ++ t) = strip chars u.
Proof.
  intros Ht. unfold strip.
  destruct (lstrip_app_trail chars u t Ht) as (t' & -> & Ht').
  now apply rstrip_app_all.
Qed.

Lemma lstrip_plus_from_lead (in_run : bool) (t s : pystr) :
  forallb (fun c => hyphen_or_space c || (c =? underscore)) t = true ->
  lstrip hyphen_or_underscore
    (re_sub_class_plus_from hyphen_or_space [hyphen] in_run (t ++ s))
  = lstrip hyphen_or_underscore
      (re_sub_class_plus_from hyphen_or_space [hyphen] false s).
Proof.
  revert in_run. induction t as [|c t IH]; intros in_run Ht.
  - destruct in_run; [|reflexivity]. destruct s as [|c s]; [reflexivity|].
    cbn [app re_sub_class_plus_from]. now destruct (hyphen_or_space c).
  - cbn [forallb] in Ht. apply andb_true_iff in Ht as [Hc Ht].
    cbn [app re_sub_class_plus_from]. destruct (hyphen_or_space c) eqn:E.
    + destruct in_run; [now apply IH|].
      change (lstrip hyphen_or_underscore
                (re_sub_class_plus_from hyphen_or_space [hyphen] true (t ++ s))
              = lstrip hyphen_or_underscore
                  (re_sub_class_plus_from hyphen_or_space [hyphen] false s)).
      now apply IH.
    + cbn [orb] in Hc. cbn [lstrip]. unfold hyphen_or_underscore at 1.
      rewrite Hc, orb_true_r. now apply IH.
Qed.

Lemma re_sub_class_plus_from_trail (in_run : bool) (s t : pystr) :
  forallb (fun c => hyphen_or_space c || (c =? underscore)) t = true ->
  exists t',
    re_sub_class_plus_from hyphen_or_space [hyphen] in_run (s ++ t)
    = re_sub_class_plus_from hyphen_or_space [hyphen] in_run s ++ t'
    /\ forallb hyphen_or_underscore t' = true.
Proof.
  intros Ht. revert in_run. induction s as [|c s IH]; intros in_run.
  - eexists. split; [reflexivity|]. now apply re_sub_class_plus_from_no_word.
  - cbn [app re_sub_class_plus_from]. destruct (hyphen_or_space c).
    + destruct (IH true) as (t' & -> & Ht'). exists t'.
      split; [now rewrite app_assoc|exact Ht'].
    + destruct (IH false) as (t' & -> & Ht'). exists t'. now split.
Qed.

Section SlugifyAround.

Variable nfkd : pystr -> pystr.

Hypothesis nfkd_ascii :
  forall s, forallb is_ascii s = true -> nfkd s = s.

(** X5: ASCII characters that are neither letters nor digits (white space,
    dashes, underscores, punctuation), put before and after an ASCII title,
    do not change its slug. *)
Theorem slugify_trims (pre x suf : pystr) :
  forallb (fun c => is_ascii c && negb (is_alnum c)) pre = true ->
  forallb is_ascii x = true ->
  forallb (fun c => is_ascii c && negb (is_alnum c)) suf = true ->
  slugify nfkd (pre ++ x ++ suf) = slugify nfkd x.
Proof.
  intros Hp Hx Hs.
  assert (Hsplit : forall v,
            forallb (fun c => is_ascii c && negb (is_alnum c)) v = true ->
            forallb is_ascii v = true
            /\ forallb (fun c => negb (is_ascii c && is_alnum c)) v = true).
  { intros v Hv. rewrite !forallb_forall in *. split; intros c Hc;
      apply Hv, andb_true_iff in Hc as [Ha Hn]; [exact Ha|].
    apply negb_true_iff in Hn. now rewrite Hn, andb_false_r. }
  destruct (Hsplit pre Hp) as [Hpa Hpn]. destruct (Hsplit suf Hs) as [Hsa Hsn].
  rewrite !slugify_eq, (nfkd_ascii x Hx), nfkd_ascii
    by (rewrite !forallb_app, Hpa, Hx, Hsa; reflexivity).
  f_equal. rewrite app_assoc, !first_sub_app. unfold re_sub_class_plus.
  destruct (re_sub_class_plus_from_trail false
              (re_sub_class not_word_space_hyphen []
                 (lower (encode_ascii_ignore pre))
               ++ re_sub_class not_word_space_hyphen []
                    (lower (encode_ascii_ignore x)))
              _ (first_sub_no_alnum suf Hsn))
    as (t' & -> & Ht').
  rewrite strip_app_all by exact Ht'. unfold strip. f_equal.
  apply lstrip_plus_from_lead. now apply first_sub_no_alnum.
Qed.

End SlugifyAround.

Lemma slugify_trims_witness :
  slugify nfkd_latin1 (py "  -- " ++ py "Weekly Sync" ++ py "!! _")
  = slugify nfkd_latin1 (py "Weekly Sync").
Proof.
  apply (slugify_trims nfkd_latin1 nfkd_latin1_ascii); reflexivity.
Defined.

(** * Further properties of a run *)

(** X6: with every setting given and no [credentials.json], a run stops
    with [FileNotFoundError] for that file; it has called neither the wiki
    nor the storage provider and has changed nothing. *)
Theorem missing_credentials_halts (w : World) (st : State) :
  truthy (environ w !! "CONFLUENCE_DOMAIN"%string) = true ->
  truthy (environ w !! "JIRA_TOKEN"%string) = true ->
  truthy (environ w !! "JIRA_USER"%string) = true ->
  environ w !! "CONFLUENCE_LABEL"%string <> Some [] ->
  credentials_json w = None ->
  main w st = (inl (FileNotFoundError (py "credentials.json")), st).
Proof.
  intros E1 E2 E3 E4 Ec. unfold main.
  do 3 (erewrite bind_ret by (now apply assert_true)).
  erewrite bind_ret.
  2: { apply assert_true.
       destruct (environ w !! "CONFLUENCE_LABEL"%string) as [[|c l]|];
         [congruence|reflexivity|reflexivity]. }
  unfold from_service_account_file. rewrite Ec.
  now erewrite bind_raise by reflexivity.
Qed.

Lemma missing_credentials_halts_witness :
  main no_key (initial acme_store ∅)
  = (inl (FileNotFoundError (py "credentials.json")), initial acme_store ∅).
Proof.
  apply missing_credentials_halts;
    [reflexivity|reflexivity|reflexivity|discriminate|reflexivity].
Defined.

(** X7: when the wiki refuses the query for the pages, the run ends with
    the wiki's error after that one call: nothing is listed, deleted,
    rendered or uploaded, and the store and the local files are as before. *)
Theorem wiki_failure_leaves_store (w : World) (st : State) (e : exn) :
  configured w ->
  wiki_pages_by_label w (confluence_of w) (label_of w) 0 50 = inl e ->
  (main w st).1 = inl e
  /\ drive (main w st).2 = drive st
  /\ tmpfs (main w st).2 = tmpfs st
  /\ trace (main w st).2
     = trace st ++ [EvWikiPagesByLabel (confluence_of w) (label_of w) 0 50].
Proof.
  intros Hc Hw. destruct (proj2 (proj2 (proj2 (proj2 Hc)))) as [key Hk].
  rewrite (main_run w key st Hc Hk), Hw. now repeat split.
Qed.

Lemma wiki_failure_leaves_store_witness :
  (main wiki_down (initial acme_store ∅)).1 = inl (ApiError (py "401"))
  /\ drive (main wiki_down (initial acme_store ∅)).2 = acme_store
  /\ tmpfs (main wiki_down (initial acme_store ∅)).2 = ∅
  /\ trace (main wiki_down (initial acme_store ∅)).2
     = [] ++ [EvWikiPagesByLabel (confluence_of wiki_down) (label_of wiki_down) 0 50].
Proof.
  apply (wiki_failure_leaves_store wiki_down (initial acme_store ∅));
    [|reflexivity].
  repeat split; try reflexivity. now exists (py "{}").
Defined.

(** ** What every stage keeps *)

Section Follows.

Variable P : event -> Prop.

Lemma follows_refl (st : State) : follows P st st.
Proof.
  split.
  - exists []. split; [now rewrite app_nil_r|constructor].
  - intros path. split; [trivial|now right].
Qed.

Lemma follows_trans (a b c : State) :
  follows P a b -> follows P b c -> follows P a c.
Proof.
  intros [(e1 & T1 & F1) W1] [(e2 & T2 & F2) W2]. split.
  - exists (e1 ++ e2). split; [now rewrite T2, T1, app_assoc|].
    apply Forall_app. now split.
  - intros path. destruct (W1 path) as [S1 D1]. destruct (W2 path) as [S2 D2].
    split; [auto|].
    destruct D1 as [D1|D1]; [now left|].
    destruct D2 as [D2|D2]; [now left|]. right. now rewrite D2.
Qed.

Lemma follows_step (e : event) (st st' : State) :
  P e -> trace st' = trace st ++ [e] -> tmpfs st' = tmpfs st ->
  follows P st st'.
Proof.
  intros He Ht Hf. split.
  - exists [e]. split; [exact Ht|]. now constructor.
  - intros path. rewrite Hf. split; [trivial|now right].
Qed.

Lemma follows_ret {A : Type} (a : A) : keeps (follows P) (ret a).
Proof. intros st. apply follows_refl. Qed.

Lemma follows_raise {A : Type} (e : exn) : keeps (follows P) (@raise A e).
Proof. intros st. apply follows_refl. Qed.

Lemma follows_lift {A : Type} (r : exn + A) : keeps (follows P) (lift r).
Proof. destruct r; intros st; apply follows_refl. Qed.

Lemma follows_assert (value : option pystr) (msg : string) :
  keeps (follows P) (assert value msg).
Proof. unfold assert. destruct (truthy value); intros st; apply follows_refl. Qed.

Lemma follows_bind {A B : Type} (m : M A) (k : A -> M B) :
  keeps (follows P) m -> (forall a, keeps (follows P) (k a)) ->
  keeps (follows P) (m ≫= k).
Proof.
  intros Hm Hk st. unfold mbind, M_bind, bind.
  specialize (Hm st). destruct (m st) as [[e|a] st']; simpl in *; [exact Hm|].
  eapply follows_trans; [exact Hm|apply Hk].
Qed.

Lemma follows_bind_ret {A B : Type} (a : A) (k : A -> M B) :
  keeps (follows P) (k a) -> keeps (follows P) (ret a ≫= k).
Proof. intros H st. exact (H st). Qed.

Lemma follows_emit (e : event) : P e -> keeps (follows P) (emit e).
Proof. intros H st. now apply (follows_step e). Qed.

Lemma follows_for_each {A : Type} (l : list A) (body : A -> M unit) :
  (forall a, In a l -> keeps (follows P) (body a)) ->
  keeps (follows P) (for_each l body).
Proof.
  induction l as [|a l IH]; intros H; [apply follows_ret|].
  cbn [for_each]. apply follows_bind; [apply H; now left|].
  intros _. apply IH. intros b Hb. apply H. now right.
Qed.

Lemma follows_same (st st' : State) :
  trace st' = trace st -> tmpfs st' = tmpfs st -> follows P st st'.
Proof.
  intros Ht Hf. split.
  - exists []. split; [now rewrite app_nil_r|constructor].
  - intros path. rewrite Hf. split; [trivial|now right].
Qed.

Lemma follows_tmp_update (title : pystr) (content : pybytes) (st st' : State) :
  forallb is_slug_char title = true ->
  trace st' = trace st ->
  tmpfs st' = <[tmp_path title := content]> (tmpfs st) ->
  follows P st st'.
Proof.
  intros Hs Ht Hf. split.
  - exists []. split; [now rewrite app_nil_r|constructor].
  - intros path. rewrite Hf.
    destruct (decide (path = tmp_path title)) as [->|Hne].
    + rewrite lookup_insert_eq. split; [now eexists|]. left. now exists title.
    + rewrite lookup_insert_ne by congruence. split; [trivial|now right].
Qed.

Lemma follows_request (e : event) : P e -> keeps (follows P) (request e).
Proof.
  intros H st. unfold request.
  destruct (faults st (trace st ++ [e])); now apply (follows_step e).
Qed.

Lemma follows_finally {A : Type} (m : M A) (cleanup : M unit) :
  keeps (follows P) m -> keeps (follows P) cleanup ->
  keeps (follows P) (finally m cleanup).
Proof.
  intros Hm Hc st. unfold finally. specialize (Hm st).
  destruct (m st) as [r st']. specialize (Hc st').
  destruct (cleanup st') as [[e|[]] st'']; cbn [snd] in *;
    eapply follows_trans; eauto.
Qed.

Lemma follows_read_google_drive (creds : Credentials) :
  P (EvDriveList 50) -> P (EvPrint (py "No files found.")) ->
  keeps (follows P) (read_google_drive creds).
Proof.
  intros Hl Hp. unfold read_google_drive. apply follows_bind.
  - unfold files_list. apply follows_bind; [now apply follows_request|].
    intros _ st. apply follows_refl.
  - intros [|x items]; [|apply follows_ret].
    apply follows_bind; [now apply follows_emit|intros _; apply follows_ret].
Qed.

Lemma follows_delete_from_google_drive (i : pystr) (creds : Credentials) :
  P (EvDriveDelete i) -> P (EvPrint (py " deleted file ID " ++ i)) ->
  keeps (follows P) (delete_from_google_drive i creds).
Proof.
  intros Hd Hp. unfold delete_from_google_drive. apply follows_bind.
  - unfold files_delete. apply follows_bind; [now apply follows_request|].
    intros _ st. destruct (existsb (has_id i) (drive st));
      [now apply follows_same|apply follows_refl].
  - intros _. now apply follows_emit.
Qed.

Lemma follows_upload_google_drive (w : World) (filename dir : pystr)
    (creds : Credentials) :
  P (EvDriveCreate filename [dir] (guess_type w filename)) ->
  (forall line, P (EvPrint line)) ->
  keeps (follows P) (upload_google_drive w filename dir creds).
Proof.
  intros Hc Hp. unfold upload_google_drive. apply follows_bind.
  - intros st. unfold files_create.
    destruct (tmpfs st !! filename) as [bytes|]; [|apply follows_refl].
    revert st. apply follows_bind; [now apply follows_request|].
    intros _ st. now apply follows_same.
  - intros file. apply follows_bind; [apply follows_emit, Hp|].
    intros _. apply follows_ret.
Qed.

Lemma follows_open_wb (title : pystr) :
  forallb is_slug_char title = true -> P (EvOpenWb (tmp_path title)) ->
  keeps (follows P) (open_wb (tmp_path title)).
Proof.
  intros Hs Hp. unfold open_wb. apply follows_bind; [now apply follows_request|].
  intros _. destruct (name_max <? _); [apply follows_raise|].
  intros st. now apply (follows_tmp_update title []).
Qed.

Lemma follows_write (w : World) (title : pystr) (content : pybytes) :
  forallb is_slug_char title = true ->
  P (EvWrite (tmp_path title) content) ->
  keeps (follows P) (write w (tmp_path title) content).
Proof.
  intros Hs Hp. unfold write. apply follows_bind; [now apply follows_request|].
  intros _ st. destruct (_ <=? _); [now apply follows_same|].
  destruct (_ <? _); eapply (follows_tmp_update title); trivial; reflexivity.
Qed.

Lemma follows_close (title : pystr) :
  forallb is_slug_char title = true -> P (EvClose (tmp_path title)) ->
  keeps (follows P) (close (tmp_path title)).
Proof.
  intros Hs Hp. unfold close. apply follows_bind; [now apply follows_request|].
  intros _ st. eapply (follows_tmp_update title); trivial; reflexivity.
Qed.

Lemma open_wb_value (path pdf_file : pystr) (st st' : State) :
  open_wb path st = (inr pdf_file, st') -> pdf_file = path.
Proof.
  unfold open_wb, request, bind.
  destruct (faults st (trace st ++ [EvOpenWb path])); [discriminate|].
  destruct (name_max <? _); [discriminate|]. now intros [= <- _].
Qed.

Lemma follows_with_open_wb {A : Type} (title : pystr) (body : pystr -> M A) :
  forallb is_slug_char title = true ->
  P (EvOpenWb (tmp_path title)) -> P (EvClose (tmp_path title)) ->
  keeps (follows P) (body (tmp_path title)) ->
  keeps (follows P) (with_open_wb (tmp_path title) body).
Proof.
  intros Hs Ho Hc Hb st. unfold with_open_wb, mbind, M_bind, bind.
  pose proof (follows_open_wb title Hs Ho st) as H1.
  destruct (open_wb (tmp_path title) st) as [[e|f] st1] eqn:Eo;
    cbn [snd] in *; [exact H1|].
  apply open_wb_value in Eo as ->.
  eapply follows_trans; [exact H1|].
  apply follows_finally; [exact Hb|now apply follows_close].
Qed.

End Follows.

Lemma follows_upload_page (P : event -> Prop) (w : World) (c : Confluence)
    (dir : pystr) (creds : Credentials) (page : Page) :
  (forall e, upload_event e -> upload_of_run w e -> P e) ->
  dir = target_of w ->
  keeps (follows P) (upload_page w c dir creds page).
Proof.
  intros HP ->. unfold upload_page. apply follows_bind.
  { unfold get_page_as_pdf. apply follows_bind; [|intros _; apply follows_lift].
    apply follows_emit, HP; exact I. }
  intros content.
  destruct (slugify (normalize_nfkd w) (page_title page)) as [title|] eqn:E.
  2: { intros st. apply follows_refl. }
  destruct (slugify_shape _ _ _ E) as (Hs & _).
  apply follows_bind_ret.
  apply follows_with_open_wb; [exact Hs|apply HP; exact I|apply HP; exact I|].
  apply follows_bind.
  { apply follows_write; [exact Hs|apply HP; exact I]. }
  intros _. apply follows_bind; [apply follows_emit, HP; exact I|].
  intros _. apply follows_bind; [|intros _; apply follows_ret].
  apply follows_upload_google_drive; [|intros line; apply HP; exact I].
  apply HP; [exact I|]. repeat split. now exists title.
Qed.

Lemma follows_main (P : event -> Prop) (w : World) :
  (forall e, upload_of_run w e -> P e) -> keeps (follows P) (main w).
Proof.
  intros HP. unfold main.
  do 4 (apply follows_bind; [apply follows_assert|intros _]).
  apply follows_bind.
  { unfold from_service_account_file.
    destruct (credentials_json w); [apply follows_ret|apply follows_raise]. }
  intros creds. apply follows_bind.
  { unfold get_all_pages_by_label.
    apply follows_bind; [|intros _; apply follows_lift].
    apply follows_emit, HP. exact I. }
  intros pages. apply follows_bind.
  { apply follows_read_google_drive; apply HP; exact I. }
  intros listing. apply follows_bind.
  { destruct listing; [apply follows_ret|apply follows_raise]. }
  intros drive_files. apply follows_bind.
  - apply follows_for_each. intros f _.
    apply follows_delete_from_google_drive; apply HP; exact I.
  - intros _. apply follows_for_each. intros page _.
    apply follows_upload_page; [|reflexivity]. intros e _. apply HP.
Qed.

(** X8: every file a run creates in the store is put in the target folder
    and in no other, under the full path of its temporary file,
    [/tmp/<slug>.pdf], with the media type guessed from that path. *)
Theorem uploads_go_to_target (w : World) (store : list DriveItem)
    (files : gmap pystr pybytes) (name : pystr) (folders : list pystr)
    (mimetype : option pystr) :
  In (EvDriveCreate name folders mimetype)
     (trace (main w (initial store files)).2) ->
  folders = [target_of w] /\ mimetype = guess_type w name
  /\ exists title, name = tmp_path title /\ forallb is_slug_char title = true.
Proof.
  intros Hin.
  destruct (follows_main (upload_of_run w) w (fun e H => H) (initial store files))
    as [(evs & Ht & Hall) _].
  rewrite Ht in Hin. cbn [initial trace app] in Hin.
  rewrite List.Forall_forall in Hall. exact (Hall _ Hin).
Qed.

Lemma uploads_go_to_target_witness :
  [py "target"] = [target_of (acme_world acme_environ [weekly_sync (py "1")])]
  /\ Some (py "application/pdf")
     = guess_type (acme_world acme_environ [weekly_sync (py "1")])
         (tmp_path (py "weekly-sync"))
  /\ exists title,
       tmp_path (py "weekly-sync") = tmp_path title
       /\ forallb is_slug_char title = true.
Proof.
  apply (uploads_go_to_target _ acme_store ∅). vm_compute. tauto.
Defined.


(** ** The order of the two loops *)

Lemma purge_events_quiet (evs : list event) :
  Forall purge_event evs ->
  rendered evs = [] /\ uploaded evs = [] /\ file_steps evs = [].
Proof.
  induction 1 as [|e evs He _ (IH1 & IH2 & IH3)]; [now repeat split|].
  destruct e; try (now destruct He);
    unfold rendered, uploaded, file_steps in *;
    cbn [flat_map List.filter is_file_step app]; now repeat split.
Qed.

Lemma upload_events_quiet (evs : list event) :
  Forall upload_event evs -> deleted_ids evs = [].
Proof.
  induction 1 as [|e evs He _ IH]; [reflexivity|].
  destruct e; try (now destruct He);
    unfold deleted_ids in *; cbn [flat_map app]; exact IH.
Qed.

(** X10: in every run the deletions come first: the trace of a run splits
    in two parts, the first without any rendering, local write or upload,
    the second without any deletion.  So no file is deleted after the first
    page has been asked for, and none of the files a run uploads is deleted
    by that run. *)
Theorem purge_precedes_uploads (w : World) (st : State) :
  exists before after,
    trace (main w st).2 = trace st ++ before ++ after
    /\ rendered before = [] /\ uploaded before = [] /\ file_steps before = []
    /\ deleted_ids after = [].
Proof.
  destruct (main_cases w st)
    as [(_ & e & ->)|[(c & l & e & _ & ->)|[(c & l & e & _ & ->)
         |[(c & l & ps & _ & _ & ->)|(c & l & ps & cr & _ & _ & ->)]]]].
  - exists [], []. cbn [snd app]. now rewrite app_nil_r.
  - exists [EvWikiPagesByLabel c l 0 50], []. now repeat split.
  - exists [EvWikiPagesByLabel c l 0 50; EvDriveList 50], [].
    cbn [snd log trace app]. rewrite <- !app_assoc. now repeat split.
  - exists [EvWikiPagesByLabel c l 0 50; EvDriveList 50;
            EvPrint (py "No files found.")], [].
    cbn [snd log trace app]. rewrite <- !app_assoc. now repeat split.
  - set (st2 := log (EvDriveList 50) (log (EvWikiPagesByLabel c l 0 50) st)).
    assert (H2 : trace st2
                 = trace st ++ [EvWikiPagesByLabel c l 0 50; EvDriveList 50]).
    { unfold st2. cbn [log trace]. now rewrite <- app_assoc. }
    unfold mbind, M_bind, bind.
    destruct (follows_for_each purge_event
                (List.filter not_folder (listing_of (drive st)))
                (fun drive_file => delete_from_google_drive (f_id drive_file) cr)
                (fun f _ => follows_delete_from_google_drive purge_event
                              (f_id f) cr I I) st2)
      as [(a & Ta & Fa) _].
    destruct (purge_events_quiet a Fa) as (Ra & Ua & Sa).
    destruct (for_each (List.filter not_folder (listing_of (drive st))) _ st2)
      as [[e|[]] st'].
    + exists ([EvWikiPagesByLabel c l 0 50; EvDriveList 50] ++ a), [].
      cbn [snd] in *. rewrite Ta, H2, app_nil_r, <- app_assoc.
      rewrite rendered_app, uploaded_app, file_steps_app, Ra, Ua, Sa.
      now repeat split.
    + destruct (follows_for_each upload_event ps
                  (upload_page w c (target_of w) cr)
                  (fun p _ => follows_upload_page upload_event w c (target_of w)
                                cr p (fun e H _ => H) eq_refl) st')
        as [(b & Tb & Fb) _].
      exists ([EvWikiPagesByLabel c l 0 50; EvDriveList 50] ++ a), b.
      cbn [snd] in *. rewrite Tb, Ta, H2, <- !app_assoc.
      rewrite rendered_app, uploaded_app, file_steps_app, Ra, Ua, Sa.
      repeat split. now apply upload_events_quiet.
Qed.

(** ** How much a run deletes *)

Lemma purge_deleted_count (files : list DriveFile) (creds : Credentials)
    (st : State) :
  (length (deleted_ids (trace (for_each files
     (fun drive_file => delete_from_google_drive (f_id drive_file) creds) st).2))
   <= length (deleted_ids (trace st)) + length files)%nat.
Proof.
  revert st. induction files as [|f files IH]; intros st; [cbn; lia|].
  cbn [for_each]. unfold mbind, M_bind, bind.
  rewrite delete_from_google_drive_eq.
  destruct (faults st (trace st ++ [EvDriveDelete (f_id f)])).
  { cbn [snd log trace length]. rewrite deleted_ids_app, length_app. cbn. lia. }
  destruct (existsb (has_id (f_id f)) (drive st)).
  - etransitivity; [apply IH|]. cbn [trace length].
    rewrite !deleted_ids_app, !length_app. cbn. lia.
  - cbn [snd log trace length]. rewrite deleted_ids_app, length_app. cbn. lia.
Qed.

(** X11: a run deletes at most fifty files, whatever the size of the
    store: the listing is asked for once, with a page size of 50, and is
    not continued. *)
Theorem purge_deletes_at_most_50 (w : World) (store : list DriveItem)
    (files : gmap pystr pybytes) :
  (length (deleted_ids (trace (main w (initial store files)).2)) <= 50)%nat.
Proof.
  destruct (main_cases w (initial store files))
    as [(_ & e & ->)|[(c & l & e & _ & ->)|[(c & l & e & _ & ->)
         |[(c & l & ps & _ & _ & ->)|(c & l & ps & cr & _ & _ & ->)]]]];
    try (cbn; lia).
  unfold mbind, M_bind, bind.
  pose proof (purge_deleted_count
                (List.filter not_folder (listing_of (drive (initial store files))))
                cr (log (EvDriveList 50)
                      (log (EvWikiPagesByLabel c l 0 50) (initial store files))))
    as Hc.
  assert (Hl : (length (List.filter not_folder
                          (listing_of (drive (initial store files)))) <= 50)%nat).
  { etransitivity; [apply List.filter_length_le|].
    unfold listing_of. rewrite length_map. apply firstn_le_length. }
  cbn [log trace initial] in Hc. rewrite !deleted_ids_app in Hc.
  cbn [deleted_ids flat_map app length] in Hc.
  destruct (for_each (List.filter not_folder _) _ _) as [[e|[]] st'];
    cbn [snd] in *; [lia|].
  rewrite (silent_for_each deleted_ids ps _
             (upload_page_deletes_nothing w c (target_of w) cr) st').
  lia.
Qed.

(** ** A run that gets as far as the second loop *)

Lemma upload_page_render_fails (w : World) (c : Confluence) (dir : pystr)
    (creds : Credentials) (page : Page) (e : exn) (st : State) :
  wiki_page_as_pdf w c (page_id page) = inl e ->
  upload_page w c dir creds page st
  = (inl e, log (EvWikiPageAsPdf c (page_id page)) st).
Proof.
  intros H.
  unfold upload_page, get_page_as_pdf, emit, lift, mbind, M_bind, bind.
  now rewrite H.
Qed.

(** X12: when the wiki lists pages and then fails to render the first one,
    the run ends with the wiki's error after the purge: the listed files
    that are not folders are gone from the store, and nothing has been
    uploaded in their place. *)
Theorem render_failure_after_purge (w : World) (store : list DriveItem)
    (files : gmap pystr pybytes) (p : Page) (rest : list Page) (e : exn) :
  configured w ->
  wiki_pages_by_label w (confluence_of w) (label_of w) 0 50 = inr (p :: rest) ->
  wiki_page_as_pdf w (confluence_of w) (page_id p) = inl e ->
  listing_of store <> [] ->
  NoDup (List.map (fun it => f_id (item it)) store) ->
  (main w (initial store files)).1 = inl e
  /\ drive (main w (initial store files)).2
     = purged (List.map f_id (List.filter not_folder (listing_of store))) store
  /\ deleted_ids (trace (main w (initial store files)).2)
     = List.map f_id (List.filter not_folder (listing_of store))
  /\ uploaded (trace (main w (initial store files)).2) = []
  /\ tmpfs (main w (initial store files)).2 = files.
Proof.
  intros Hcfg Hw Hr Hne Hnd.
  destruct (proj2 (proj2 (proj2 (proj2 Hcfg)))) as [key Hk].
  rewrite (main_loops w key (initial store files) (p :: rest) Hcfg Hk Hw
             (fun tr => eq_refl) Hne Hnd).
  cbn [for_each].
  rewrite (bind_raise _ _ _ _ _
             (upload_page_render_fails w _ (target_of w) (credentials_of key)
                p e _ Hr)).
  cbn [fst snd drive tmpfs trace log initial].
  rewrite !deleted_ids_app, !uploaded_app.
  rewrite purge_events_deleted, purge_events_uploaded.
  cbn [deleted_ids uploaded flat_map app]. rewrite app_nil_r. now repeat split.
Qed.

Lemma render_failure_after_purge_witness :
  (main (render_down [weekly_sync (py "1")]) (initial acme_store ∅)).1
  = inl (ApiError (py "503"))
  /\ drive (main (render_down [weekly_sync (py "1")]) (initial acme_store ∅)).2
     = purged (List.map f_id (List.filter not_folder (listing_of acme_store)))
         acme_store
  /\ deleted_ids
       (trace (main (render_down [weekly_sync (py "1")]) (initial acme_store ∅)).2)
     = List.map f_id (List.filter not_folder (listing_of acme_store))
  /\ uploaded
       (trace (main (render_down [weekly_sync (py "1")]) (initial acme_store ∅)).2)
     = []
  /\ tmpfs (main (render_down [weekly_sync (py "1")]) (initial acme_store ∅)).2
     = ∅.
Proof.
  apply (render_failure_after_purge (render_down [weekly_sync (py "1")])
           acme_store ∅ (weekly_sync (py "1")) []).
  - repeat split; try reflexivity. now exists (py "{}").
  - reflexivity.
  - reflexivity.
  - discriminate.
  - exact acme_store_distinct.
Defined.

Lemma slug_of_eq (w : World) (page : Page) :
  slugify (normalize_nfkd w) (page_title page) = Some (slug_of w page).
Proof. unfold slug_of. now rewrite slugify_eq. Qed.

Lemma upload_all (w : World) (c : Confluence) (dir : pystr) (creds : Credentials)
    (pages : list Page) (st : State) :
  no_faults st ->
  (forall p, In p pages ->
     exists content, wiki_page_as_pdf w c (page_id p) = inr content) ->
  (forall p, In p pages -> N.of_nat (length (slug_of w p)) <= 251) ->
  exists st',
    for_each pages (upload_page w c dir creds) st = (inr tt, st')
    /\ rendered (trace st') = rendered (trace st) ++ List.map page_id pages
    /\ uploaded (trace st')
       = uploaded (trace st)
         ++ List.map (fun p => (tmp_path (slug_of w p), [dir])) pages
    /\ List.map placed (drive st')
       = List.map placed (drive st)
         ++ List.map (fun p => (tmp_path (slug_of w p), [dir])) pages.
Proof.
  revert st. induction pages as [|p pages IH]; intros st Hnf H Hlen.
  - exists st. cbn [for_each List.map]. now rewrite !app_nil_r.
  - destruct (H p (or_introl eq_refl)) as [content Hc].
    cbn [for_each].
    rewrite (bind_ret _ _ _ _ _
               (upload_page_eq w c dir creds p content (slug_of w p) st Hnf Hc
                  (slug_of_eq w p) (Hlen p (or_introl eq_refl)))).
    match goal with |- context [for_each pages _ ?s] => set (st1 := s) end.
    destruct (IH st1 Hnf (fun q Hq => H q (or_intror Hq))
                (fun q Hq => Hlen q (or_intror Hq)))
      as (st' & Hrun & Hr & Hu & Hd).
    exists st'. split; [exact Hrun|]. rewrite Hr, Hu, Hd. unfold st1.
    cbn [trace drive List.map]. rewrite rendered_app, uploaded_app, List.map_app.
    cbn [rendered uploaded flat_map app List.map placed item parents f_name].
    rewrite <- !app_assoc. now repeat split.
Qed.

(** X13: when the wiki answers every call, the storage provider and the
    operating system refuse no request, no slug is longer than 251
    characters and the listing is not empty, a run ends without error; it
    has deleted the listed files that are not folders, rendered the pages in
    the order of the wiki's answer, and uploaded one file per page, in that
    order, each named [/tmp/<slug of the title>.pdf] and placed in the
    target folder; the store holds what the purge left, followed by these
    files. *)
Theorem run_uploads_every_page (w : World) (st : State) (pages : list Page) :
  configured w ->
  wiki_pages_by_label w (confluence_of w) (label_of w) 0 50 = inr pages ->
  (forall p, In p pages ->
     exists content,
       wiki_page_as_pdf w (confluence_of w) (page_id p) = inr content) ->
  (forall p, In p pages -> N.of_nat (length (slug_of w p)) <= 251) ->
  no_faults st ->
  trace st = [] ->
  listing_of (drive st) <> [] ->
  NoDup (List.map (fun it => f_id (item it)) (drive st)) ->
  (main w st).1 = inr tt
  /\ deleted_ids (trace (main w st).2)
     = List.map f_id (List.filter not_folder (listing_of (drive st)))
  /\ rendered (trace (main w st).2) = List.map page_id pages
  /\ uploaded (trace (main w st).2)
     = List.map (fun p => (tmp_path (slug_of w p), [target_of w])) pages
  /\ List.map placed (drive (main w st).2)
     = List.map placed
         (purged (List.map f_id (List.filter not_folder (listing_of (drive st))))
            (drive st))
       ++ List.map (fun p => (tmp_path (slug_of w p), [target_of w])) pages.
Proof.
  intros Hcfg Hw Hr Hlen Hnf Htr Hne Hnd.
  destruct (proj2 (proj2 (proj2 (proj2 Hcfg)))) as [key Hk].
  rewrite (main_loops w key st pages Hcfg Hk Hw Hnf Hne Hnd).
  match goal with |- context [for_each pages _ ?s] => set (st1 := s) end.
  pose proof (silent_for_each deleted_ids pages _
                (upload_page_deletes_nothing w (confluence_of w) (target_of w)
                   (credentials_of key)) st1) as Hdel.
  destruct (upload_all w (confluence_of w) (target_of w) (credentials_of key)
              pages st1 Hnf Hr Hlen) as (st' & Hrun & Hre & Hu & Hd).
  rewrite Hrun in *. cbn [fst snd] in *. rewrite Hdel, Hre, Hu, Hd.
  unfold st1. cbn [trace drive]. rewrite Htr.
  rewrite deleted_ids_app, rendered_app, uploaded_app.
  rewrite purge_events_deleted, purge_events_rendered, purge_events_uploaded.
  now repeat split.
Qed.

Lemma run_uploads_every_page_witness :
  (main (acme_world acme_environ [weekly_sync (py "1")]) (initial acme_store ∅)).1
  = inr tt
  /\ deleted_ids
       (trace (main (acme_world acme_environ [weekly_sync (py "1")])
                 (initial acme_store ∅)).2)
     = List.map f_id (List.filter not_folder (listing_of acme_store))
  /\ rendered
       (trace (main (acme_world acme_environ [weekly_sync (py "1")])
                 (initial acme_store ∅)).2)
     = List.map page_id [weekly_sync (py "1")]
  /\ uploaded
       (trace (main (acme_world acme_environ [weekly_sync (py "1")])
                 (initial acme_store ∅)).2)
     = List.map
         (fun p => (tmp_path (slug_of (acme_world acme_environ
                                         [weekly_sync (py "1")]) p),
                    [target_of (acme_world acme_environ [weekly_sync (py "1")])]))
         [weekly_sync (py "1")]
  /\ List.map placed
       (drive (main (acme_world acme_environ [weekly_sync (py "1")])
                 (initial acme_store ∅)).2)
     = List.map placed
         (purged (List.map f_id (List.filter not_folder (listing_of acme_store)))
            acme_store)
       ++ List.map
            (fun p => (tmp_path (slug_of (acme_world acme_environ
                                            [weekly_sync (py "1")]) p),
                       [target_of (acme_world acme_environ
                                     [weekly_sync (py "1")])]))
            [weekly_sync (py "1")].
Proof.
  apply (run_uploads_every_page (acme_world acme_environ [weekly_sync (py "1")])
           (initial acme_store ∅) [weekly_sync (py "1")]).
  - apply acme_configured.
  - reflexivity.
  - intros p _. eexists. reflexivity.
  - intros p [<-|[]]. vm_compute. discriminate.
  - intros tr. reflexivity.
  - reflexivity.
  - discriminate.
  - exact acme_store_distinct.
Defined.

(** ** What the purge leaves in the store *)












